(** * label_app.py: filtering, label merge and save of the comment labeler

    A shallow embedding of [src/label_app.py].  The program manipulates pandas
    DataFrames; the fragment of pandas it relies on is embedded first
    (module [Pandas]), then the functions of the application, with the same
    names as in the source.

    Modelling conventions.
    - A DataFrame is its list of column names and its rows in positional
      order; the row index (labels 0..n-1) is not represented, since every
      boolean mask the program applies is computed from the very frame it is
      applied to and [pd.concat] is called with [ignore_index=True].
    - A cell is a string or an integer, or missing ([None] stands for both
      Python [None] and NaN; pandas' [isna]/[notna] do not tell them apart).
    - A Python exception is a value of [pyexn]; a computation that may raise
      has type [result A]. *)

From Stdlib Require Import List String ZArith Bool Lia PeanoNat Permutation.
Import ListNotations.
Open Scope string_scope.
Open Scope list_scope.

(** ** Exceptions and the error monad *)

Inductive pyexn : Type :=
| KeyError (key : string)          (* subclass of Exception *)
| OSError (msg : string)           (* subclass of Exception *)
| ValueError (msg : string)        (* subclass of Exception *)
| KeyboardInterrupt.               (* BaseException only *)

(** [isinstance(e, Exception)], the test made by [except Exception]. *)
Definition is_Exception (e : pyexn) : bool :=
  match e with
  | KeyboardInterrupt => false
  | _ => true
  end.

Inductive result (A : Type) : Type :=
| Ok (a : A)
| Raise (e : pyexn).
Arguments Ok {A} a.
Arguments Raise {A} e.

Definition bind {A B} (m : result A) (k : A -> result B) : result B :=
  match m with
  | Ok a => k a
  | Raise e => Raise e
  end.

Notation "x <- m ;; k" := (bind m (fun x => k))
  (at level 100, m at next level, right associativity).

Fixpoint mapM {A B} (f : A -> result B) (l : list A) : result (list B) :=
  match l with
  | [] => Ok []
  | a :: l' => b <- f a ;; bs <- mapM f l' ;; Ok (b :: bs)
  end.

(** ** The pandas fragment *)

Module Pandas.

Inductive scalar : Type :=
| SStr (s : string)
| SInt (z : Z).

Definition cell := option scalar.

Definition scalar_eqb (a b : scalar) : bool :=
  match a, b with
  | SStr s, SStr t => String.eqb s t
  | SInt x, SInt y => Z.eqb x y
  | _, _ => false
  end.

(** Equality used to match values in [isin] and join keys in [merge]:
    there a missing value matches a missing value. *)
Definition cell_eqb (a b : cell) : bool :=
  match a, b with
  | Some x, Some y => scalar_eqb x y
  | None, None => true
  | _, _ => false
  end.

(** Elementwise [series == value]: a missing element compares unequal. *)
Definition elt_eqb (v : scalar) (c : cell) : bool :=
  match c with
  | Some x => scalar_eqb x v
  | None => false
  end.

Definition notna (c : cell) : bool :=
  match c with
  | Some _ => true
  | None => false
  end.

Record DataFrame : Type := mkDF {
  columns : list string;
  rows : list (list cell)
}.

(** Every row has one cell per column. *)
Definition wf (df : DataFrame) : Prop :=
  Forall (fun r => List.length r = List.length (columns df)) (rows df).

Definition has_column (name : string) (df : DataFrame) : Prop :=
  In name (columns df).

(** Position of the first column called [name]. *)
Fixpoint col_index (name : string) (cols : list string) : option nat :=
  match cols with
  | [] => None
  | c :: cs =>
      if String.eqb name c then Some 0%nat
      else option_map S (col_index name cs)
  end.

Definition at_col (i : nat) (r : list cell) : cell := nth i r None.

(** The cell of row [r] under column [name], missing if there is no such
    column. *)
Definition cell_at (cols : list string) (name : string) (r : list cell) : cell :=
  match col_index name cols with
  | Some i => at_col i r
  | None => None
  end.

(** [name in df.columns] *)
Definition contains (df : DataFrame) (name : string) : bool :=
  existsb (String.eqb name) (columns df).

(** [df[name]]: the column as a series, [KeyError] if absent. *)
Definition getitem (df : DataFrame) (name : string) : result (list cell) :=
  match col_index name (columns df) with
  | Some i => Ok (map (at_col i) (rows df))
  | None => Raise (KeyError name)
  end.

(** [df[[n1, n2, ...]]]: the sub-frame of the named columns, in that order.
    pandas reports all missing names in one KeyError; here the error carries
    the first of them. *)
Definition getitems (df : DataFrame) (names : list string) : result DataFrame :=
  idxs <- mapM (fun n => match col_index n (columns df) with
                         | Some i => Ok i
                         | None => Raise (KeyError n)
                         end) names ;;
  Ok (mkDF names (map (fun r => map (fun i => at_col i r) idxs) (rows df))).

(** [df[mask]] for a boolean series [mask] aligned with [df]. *)
Definition loc_mask (df : DataFrame) (mask : list bool) : DataFrame :=
  mkDF (columns df) (map fst (filter snd (combine (rows df) mask))).

(** [series == v] *)
Definition series_eq (s : list cell) (v : scalar) : list bool :=
  map (elt_eqb v) s.

(** [series.isin(values)] *)
Definition isin (s : list cell) (values : list cell) : list bool :=
  map (fun c => existsb (cell_eqb c) values) s.

(** [series.notna()] *)
Definition series_notna (s : list cell) : list bool := map notna s.

(** [m1 & m2] and [~m] on boolean series. *)
Definition mask_and (m1 m2 : list bool) : list bool :=
  map (fun p => fst p && snd p) (combine m1 m2).

Definition mask_not (m : list bool) : list bool := map negb m.

(** [series.unique()]: first occurrences, in order. *)
Fixpoint unique (s : list cell) : list cell :=
  match s with
  | [] => []
  | c :: s' => c :: filter (fun d => negb (cell_eqb c d)) (unique s')
  end.

(** [df.empty]: some axis has length zero. *)
Definition empty (df : DataFrame) : bool :=
  match columns df, rows df with
  | [], _ => true
  | _, [] => true
  | _, _ => false
  end.

Fixpoint set_nth (i : nat) (c : cell) (r : list cell) : list cell :=
  match r, i with
  | [], _ => []
  | _ :: r', O => c :: r'
  | x :: r', S i' => x :: set_nth i' c r'
  end.

(** [df[name] = None]: overwrite the column if it exists, append it
    otherwise. *)
Definition setitem_None (df : DataFrame) (name : string) : DataFrame :=
  match col_index name (columns df) with
  | Some i => mkDF (columns df) (map (set_nth i None) (rows df))
  | None => mkDF (columns df ++ [name]) (map (fun r => r ++ [None]) (rows df))
  end.

Definition mem_string (s : string) (l : list string) : bool :=
  existsb (String.eqb s) l.

(** [left.merge(right, on=on, how='left', suffixes=('', rsuffix))].

    Every left row is kept, in order; it is paired with each right row that
    agrees with it on the [on] columns, in the order of [right], or with
    missing values when there is none.  The result has the left columns,
    then the right columns other than the keys; a right column whose name
    is also a left column gets [rsuffix] appended (the left one keeps its
    name, its suffix being empty).  A key column missing from either frame
    is a KeyError.  pandas also refuses, with a ValueError, to join key
    columns of incompatible dtypes; column dtypes are not represented, so
    what is stated of a join is stated of a merge that returns. *)
Definition merge_left (left right : DataFrame) (on : list string)
    (rsuffix : string) : result DataFrame :=
  lk <- mapM (fun n => match col_index n (columns left) with
                       | Some i => Ok i
                       | None => Raise (KeyError n)
                       end) on ;;
  rk <- mapM (fun n => match col_index n (columns right) with
                       | Some i => Ok i
                       | None => Raise (KeyError n)
                       end) on ;;
  let rest := filter (fun n => negb (mem_string n on)) (columns right) in
  let rest_of (r : list cell) := map (fun n => cell_at (columns right) n r) rest in
  let same_key (l r : list cell) :=
    forallb (fun p => cell_eqb (at_col (fst p) l) (at_col (snd p) r))
            (combine lk rk) in
  let rename (n : string) :=
    if mem_string n (columns left) then String.append n rsuffix else n in
  Ok (mkDF (columns left ++ map rename rest)
        (flat_map (fun l =>
           match filter (same_key l) (rows right) with
           | [] => [l ++ map (fun _ => None) rest]
           | ms => map (fun r => l ++ rest_of r) ms
           end) (rows left))).

(** Cells of [r], a row over [from], rearranged for the columns [to]. *)
Definition reindex (from to : list string) (r : list cell) : list cell :=
  map (fun n => cell_at from n r) to.

(** [pd.concat([a, b], ignore_index=True)]: the columns of [a], then those
    of [b] that [a] lacks; rows of [a] then rows of [b], with missing values
    for the columns a frame does not have. *)
Definition concat (a b : DataFrame) : DataFrame :=
  let cols := columns a ++
              filter (fun n => negb (mem_string n (columns a))) (columns b) in
  mkDF cols (map (reindex (columns a) cols) (rows a) ++
             map (reindex (columns b) cols) (rows b)).

End Pandas.
Import Pandas.

(** ** The application *)

(** [filter_comments(comments_df, video_id, videos_df=None, frame=None)] *)
Definition filter_comments (comments_df : DataFrame) (video_id : scalar)
    (videos_df : option DataFrame) (frame : option Z) : result DataFrame :=
  vid <- getitem comments_df "videoId" ;;
  let filtered := loc_mask comments_df (series_eq vid video_id) in
  match frame, videos_df with
  | Some f, Some videos =>
      fr <- getitem videos "frame" ;;
      ids <- getitem (loc_mask videos (series_eq fr (SInt f))) "videoId" ;;
      let matching_videos := unique ids in
      fvid <- getitem filtered "videoId" ;;
      Ok (loc_mask filtered (isin fvid matching_videos))
  | _, _ => Ok filtered
  end.

(** [merge_with_existing_labels(comments_df, existing_labels)] *)
Definition merge_with_existing_labels (comments_df : DataFrame)
    (existing_labels : option DataFrame) : result DataFrame :=
  match existing_labels with
  | None => Ok (setitem_None comments_df "label")
  | Some existing =>
      if empty existing then Ok (setitem_None comments_df "label")
      else if contains comments_df "text_original"
              && contains existing "text_original" then
        right <- getitems existing ["text_original"; "videoId"; "label"] ;;
        merge_left comments_df right ["text_original"; "videoId"] "_existing"
      else Ok (setitem_None comments_df "label")
  end.

(** The first statement of the save block of [main]: the persisted rows
    that are kept aside, [other_labels = existing_labels[mask]]. *)
Definition other_labels (existing_labels filtered_comments : DataFrame)
    : result DataFrame :=
  et <- getitem existing_labels "text_original" ;;
  ft <- getitem filtered_comments "text_original" ;;
  ev <- getitem existing_labels "videoId" ;;
  fv <- getitem filtered_comments "videoId" ;;
  let mask := mask_not (mask_and (isin et ft) (isin ev fv)) in
  Ok (loc_mask existing_labels mask).

(** The frame handed to [save_labeled_data] by the save block. *)
Definition all_labeled (existing_labels : option DataFrame)
    (filtered_comments : DataFrame) : result DataFrame :=
  combined <- match existing_labels with
              | Some existing =>
                  others <- other_labels existing filtered_comments ;;
                  Ok (concat others filtered_comments)
              | None => Ok filtered_comments
              end ;;
  lab <- getitem combined "label" ;;
  Ok (loc_mask combined (series_notna lab)).

(** *** The output file and the user interface *)

(** What [OUTPUT_FILE] holds: nothing, the CSV text of a frame, or bytes
    that [pd.read_csv] rejects. *)
Inductive file_state : Type :=
| Absent
| Stored (df : DataFrame)
| Unreadable.

Inductive message : Type :=
| StError (text : string)
| StWarning (text : string)
| StSuccess (saved : nat).

(** The frames [main] holds when the save button is pressed. *)
Record session : Type := mkSession {
  existing_labels : option DataFrame;
  filtered_comments : DataFrame
}.

Record world : Type := mkWorld {
  mem : session;
  disk : file_state;
  ui : list message
}.

(** [load_existing_labels()] *)
Definition load_existing_labels (w : world) : option DataFrame * world :=
  match disk w with
  | Absent => (None, w)
  | Stored df => (Some df, w)
  | Unreadable =>
      (None, mkWorld (mem w) (disk w)
               (ui w ++ [StWarning "Could not load existing labels"]))
  end.

Section Save.

(** [df.to_csv(OUTPUT_FILE, index=False)]: the file system decides whether
    the write succeeds and what the file holds afterwards; the frame is only
    read. *)
Variable to_csv : DataFrame -> file_state -> result unit * file_state.

(** [save_labeled_data(df)] *)
Definition save_labeled_data (df : DataFrame) (w : world)
    : result bool * world :=
  match to_csv df (disk w) with
  | (Ok _, d) => (Ok true, mkWorld (mem w) d (ui w))
  | (Raise e, d) =>
      if is_Exception e
      then (Ok false,
            mkWorld (mem w) d (ui w ++ [StError "Error saving file"]))
      else (Raise e, mkWorld (mem w) d (ui w))
  end.

(** The body of [if st.button("Save Labels")] in [main]. *)
Definition save_button (w : world) : result unit * world :=
  match all_labeled (existing_labels (mem w)) (filtered_comments (mem w)) with
  | Raise e => (Raise e, w)
  | Ok df =>
      match save_labeled_data df w with
      | (Ok true, w') =>
          (Ok tt, mkWorld (mem w') (disk w')
                    (ui w' ++ [StSuccess (List.length (rows df))]))
      | (Ok false, w') =>
          (Ok tt, mkWorld (mem w') (disk w')
                    (ui w' ++ [StError "Failed to save labeled data"]))
      | (Raise e, w') => (Raise e, w')
      end
  end.

End Save.

(** ** Test data *)

Module Examples.

Definition s (x : string) : cell := Some (SStr x).
Definition n (x : Z) : cell := Some (SInt x).

Definition comments : DataFrame :=
  mkDF ["videoId"; "text_original"]
       [[s "vA"; s "t1"]; [s "vA"; s "t2"]; [s "vB"; s "t3"]].

Definition videos : DataFrame :=
  mkDF ["videoId"; "frame"] [[s "vA"; n 1]; [s "vB"; n 2]; [s "vC"; n 1]].

(** A persisted file that has lost its videoId column. *)
Definition persisted_no_videoId : DataFrame :=
  mkDF ["text_original"; "label"] [[s "t1"; n 2]].

(** A view over two videos and a persisted row whose text is in one row of
    the view and whose videoId is in the other. *)
Definition cross_view : DataFrame :=
  mkDF ["videoId"; "text_original"; "label"]
       [[s "vA"; s "t1"; n 1]; [s "vB"; s "t2"; n 1]].

Definition cross_persisted : DataFrame :=
  mkDF ["videoId"; "text_original"; "label"] [[s "vB"; s "t1"; n 2]].

(** The worked example of the specification: two comments of video vA, the
    first already persisted with label 2; the operator gives the second
    label 3.  A label of another video, vB, is also on file. *)
Definition spec_comments : DataFrame :=
  mkDF ["videoId"; "text_original"] [[s "vA"; s "t1"]; [s "vA"; s "t2"]].

Definition spec_persisted : DataFrame :=
  mkDF ["videoId"; "text_original"; "label"]
       [[s "vA"; s "t1"; n 2]; [s "vB"; s "t3"; n 1]].

Definition spec_merged : DataFrame :=
  mkDF ["videoId"; "text_original"; "label"]
       [[s "vA"; s "t1"; n 2]; [s "vA"; s "t2"; None]].

Definition spec_view : DataFrame :=
  mkDF ["videoId"; "text_original"; "label"]
       [[s "vA"; s "t1"; n 2]; [s "vA"; s "t2"; n 3]].

(** A file system on which writes succeed and keep the frame as written,
    and one on which every write fails and leaves the file as it was. *)
Definition lossless_to_csv (df : DataFrame) (d : file_state)
    : result unit * file_state :=
  (Ok tt, Stored df).

Definition failing_to_csv (df : DataFrame) (d : file_state)
    : result unit * file_state :=
  (Raise (OSError "No space left on device"), d).

Definition spec_world : world :=
  mkWorld (mkSession (Some spec_persisted) spec_view)
          (Stored spec_persisted) [].

End Examples.

(** ** Vocabulary of the specification *)

(** The row [r], read under the columns [cols], belongs to video [v]. *)
Definition matches_video (v : scalar) (cols : list string) (r : list cell)
    : bool :=
  elt_eqb v (cell_at cols "videoId" r).

(** The videoIds of the videos table whose frame is [f]. *)
Definition videos_of_frame (videos : DataFrame) (f : Z) : list cell :=
  unique (map (cell_at (columns videos) "videoId")
            (filter (fun r => elt_eqb (SInt f)
                                (cell_at (columns videos) "frame" r))
               (rows videos))).

(** The keys (text_original, videoId) of a current row [l], read under
    [lcols], and of a persisted row [r], read under [rcols], agree. *)
Definition same_key (lcols rcols : list string) (l r : list cell) : bool :=
  cell_eqb (cell_at lcols "text_original" l) (cell_at rcols "text_original" r)
  && cell_eqb (cell_at lcols "videoId" l) (cell_at rcols "videoId" r).

(** The label of row [r] of frame [df]. *)
Definition label_of (df : DataFrame) (r : list cell) : cell :=
  cell_at (columns df) "label" r.

(** Labels of the persisted rows that share the key of [l], in file order. *)
Definition persisted_labels (existing : DataFrame) (lcols : list string)
    (l : list cell) : list cell :=
  map (label_of existing)
    (filter (same_key lcols (columns existing) l) (rows existing)).

(** Name under which the joined label column appears: [label], unless the
    current frame already has a column of that name. *)
Definition joined_name (cols : list string) : string :=
  if mem_string "label" cols then "label_existing" else "label".

(** The left join of the specification: every current row, once per
    persisted row that shares its key and extended with that row's label,
    or once with a null label when no persisted row shares its key. *)
Definition left_join_labels (comments existing : DataFrame) : DataFrame :=
  mkDF (columns comments ++ [joined_name (columns comments)])
    (flat_map (fun l =>
       match persisted_labels existing (columns comments) l with
       | [] => [l ++ [None]]
       | labs => map (fun x => l ++ [x]) labs
       end) (rows comments)).

(** The join as the specification words it, for a merge that returns: every
    row of the result carries, as its label, the label of a persisted row
    that shares its key, or a null label when no persisted row shares its
    key. *)
Definition receives_persisted_labels (c ex : DataFrame) : Prop :=
  forall m, merge_with_existing_labels c (Some ex) = Ok m ->
  forall r, In r (rows m) ->
    (exists p, In p (rows ex) /\
               same_key (columns m) (columns ex) r p = true /\
               label_of m r = label_of ex p) \/
    ((forall p, In p (rows ex) ->
        same_key (columns m) (columns ex) r p = false) /\
     label_of m r = None).

(** Every row extended with a null label. *)
Definition attach_null_label (comments : DataFrame) : DataFrame :=
  mkDF (columns comments ++ ["label"])
    (map (fun r => r ++ [None]) (rows comments)).

(** The text of the persisted row [p], read under [cols], is the text of
    some row of the view; likewise for its videoId; and for both at once in
    a single row of the view. *)
Definition text_in (view : DataFrame) (cols : list string) (p : list cell)
    : bool :=
  existsb (fun v => cell_eqb (cell_at cols "text_original" p)
                      (cell_at (columns view) "text_original" v))
    (rows view).

Definition video_in (view : DataFrame) (cols : list string) (p : list cell)
    : bool :=
  existsb (fun v => cell_eqb (cell_at cols "videoId" p)
                      (cell_at (columns view) "videoId" v))
    (rows view).

Definition key_in (view : DataFrame) (cols : list string) (p : list cell)
    : bool :=
  existsb (fun v => same_key cols (columns view) p v) (rows view).

(** All rows of the view carry the same videoId, as do the rows returned by
    [filter_comments]. *)
Definition single_video (view : DataFrame) : Prop :=
  exists c, forall r, In r (rows view) ->
    cell_at (columns view) "videoId" r = c.

Definition labeled (cols : list string) (r : list cell) : bool :=
  notna (cell_at cols "label" r).

(** The first step of save as the specification words it: the rows kept
    aside are exactly the persisted rows whose (text_original, videoId)
    pair is not the pair of any row of the view. *)
Definition removes_matching_pairs (existing view : DataFrame) : Prop :=
  exists others,
    other_labels existing view = Ok others /\
    rows others =
      filter (fun p => negb (key_in view (columns existing) p))
        (rows existing).

(** Some row of the videos table pairs video [v] with frame [f]. *)
Definition frame_has_video (videos : DataFrame) (f : Z) (v : scalar) : bool :=
  existsb (fun r => elt_eqb (SInt f) (cell_at (columns videos) "frame" r)
                    && elt_eqb v (cell_at (columns videos) "videoId" r))
    (rows videos).

(** The (text_original, videoId) key of a row read under [cols]. *)
Definition key_of (cols : list string) (r : list cell) : cell * cell :=
  (cell_at cols "text_original" r, cell_at cols "videoId" r).

(** No two rows of the frame have the same key. *)
Definition keys_distinct (df : DataFrame) : Prop :=
  NoDup (map (key_of (columns df)) (rows df)).

(** ** The labeling loop of main *)

(** [LABEL_OPTIONS = [1, 2, 3]] *)
Definition LABEL_OPTIONS : list Z := [1; 2; 3]%Z.

(** [options.index(x)]: the position of the first element equal to [x],
    ValueError when there is none. *)
Fixpoint list_index (x : Z) (l : list Z) : result nat :=
  match l with
  | [] => Raise (ValueError "is not in list")
  | y :: l' =>
      if Z.eqb x y then Ok 0%nat else (i <- list_index x l' ;; Ok (S i))
  end.

Fixpoint update_nth {A} (i : nat) (f : A -> A) (l : list A) : list A :=
  match l, i with
  | [], _ => []
  | x :: l', O => f x :: l'
  | x :: l', S i' => x :: update_nth i' f l'
  end.

(** [df.at[pos, name] = v] for the row at position [pos]: the cell is
    overwritten; if the frame has no column [name] yet, the column is
    appended, with missing values in the other rows. *)
Definition at_set (df : DataFrame) (pos : nat) (name : string) (v : cell)
    : DataFrame :=
  match col_index name (columns df) with
  | Some j => mkDF (columns df) (update_nth pos (set_nth j v) (rows df))
  | None =>
      mkDF (columns df ++ [name])
        (map (fun ir => snd ir ++ [if Nat.eqb (fst ir) pos then v else None])
           (combine (seq 0 (List.length (rows df))) (rows df)))
  end.

Section Labeling.

(** Python's [int] on a string: the integer it denotes, if any. *)
Variable int_of_string : string -> option Z.

(** The state of the radio widget of each row, by position in the view: the
    option the operator has chosen, if any. *)
Variable picked : nat -> option Z.

(** [int(x)] *)
Definition py_int (x : scalar) : result Z :=
  match x with
  | SInt z => Ok z
  | SStr t =>
      match int_of_string t with
      | Some z => Ok z
      | None => Raise (ValueError "invalid literal for int()")
      end
  end.

(** [st.radio("Select Label:", options=LABEL_OPTIONS, index=default_index,
    key=...)]: the option chosen by the operator, or the one at
    [default_index] when the widget has not been touched. *)
Definition radio (pos default_index : nat) : Z :=
  match picked pos with
  | Some z => z
  | None => nth default_index LABEL_OPTIONS 0%Z
  end.

(** The default index computed for a row from [row.get('label', None)]. *)
Definition default_index (cols : list string) (row : list cell)
    : result nat :=
  match cell_at cols "label" row with
  | Some x => z <- py_int x ;; list_index z LABEL_OPTIONS
  | None => Ok 0%nat
  end.

(** One iteration of [for idx, row in filtered_comments.iterrows()]: the
    row is the one read when the iteration started, the frame is the one
    the loop is updating.  The index labels of a view are distinct, so a
    row is identified by its position.  The widgets that only display
    (the heading, the text area) and the dictionary kept in the session
    state, which is never read, are not represented. *)
Definition label_step (df : DataFrame) (cols : list string) (pos : nat)
    (row : list cell) : result DataFrame :=
  d <- default_index cols row ;;
  let label := radio pos d in
  Ok (at_set df pos "label" (Some (SInt label))).

Fixpoint label_rows (df : DataFrame) (cols : list string)
    (its : list (nat * list cell)) : result DataFrame :=
  match its with
  | [] => Ok df
  | (pos, row) :: rest =>
      df' <- label_step df cols pos row ;; label_rows df' cols rest
  end.

(** The whole loop over the view. *)
Definition label_loop (df : DataFrame) : result DataFrame :=
  label_rows df (columns df)
    (combine (seq 0 (List.length (rows df))) (rows df)).

(** The rows the loop produces, computed row by row: each row with its
    label cell, at column position [j], replaced by the radio's value. *)
Fixpoint relabel (j : nat) (cols : list string) (pos : nat)
    (rs : list (list cell)) : result (list (list cell)) :=
  match rs with
  | [] => Ok []
  | r :: rs' =>
      d <- default_index cols r ;;
      rest <- relabel j cols (S pos) rs' ;;
      Ok (set_nth j (Some (SInt (radio pos d))) r :: rest)
  end.

End Labeling.

(** ** The rest of main: validation, selection lists, status filter *)

(** The error shown by the column checks of [main], in the order they are
    made. *)
Inductive validation_error : Type :=
| CommentsNeedText       (* Comments CSV must contain 'text_original' *)
| CommentsNeedVideoId    (* Comments CSV must contain 'videoId' *)
| VideosNeedColumns.     (* Videos CSV must contain 'videoId' and 'frame' *)

(** The three checks that follow the loading of the two files; [None] when
    none of them stops [main]. *)
Definition validate_columns (comments_df videos_df : DataFrame)
    : option validation_error :=
  if negb (contains comments_df "text_original") then Some CommentsNeedText
  else if negb (contains comments_df "videoId") then Some CommentsNeedVideoId
  else if negb (contains videos_df "videoId")
          || negb (contains videos_df "frame") then Some VideosNeedColumns
  else None.

Section Selection.

(** Python's [sorted] on a list of cell values: a library function, not
    part of the program; it may raise (TypeError on values of different
    types). *)
Variable py_sorted : list cell -> result (list cell).

(** [get_video_ids(videos_df)] *)
Definition get_video_ids (videos_df : DataFrame) : result (list cell) :=
  if contains videos_df "videoId" then
    ids <- getitem videos_df "videoId" ;; py_sorted (unique ids)
  else Ok [].

(** [get_frames(videos_df)] *)
Definition get_frames (videos_df : DataFrame) : result (list cell) :=
  if contains videos_df "frame" then
    frames <- getitem videos_df "frame" ;; py_sorted (unique frames)
  else Ok [].

End Selection.

(** The choices of the radio "Show comments:". *)
Inductive label_status : Type :=
| ShowAll
| UnlabeledOnly
| LabeledOnly.

(** [series.isna()] *)
Definition series_isna (s : list cell) : list bool :=
  map (fun c => negb (notna c)) s.

(** [series.sum()] of a boolean series: the number of trues. *)
Definition count_true (m : list bool) : nat :=
  List.length (filter (fun b => b) m).

(** The label status filter of [main]. *)
Definition apply_label_filter (status : label_status) (df : DataFrame)
    : result DataFrame :=
  match status with
  | UnlabeledOnly =>
      lab <- getitem df "label" ;; Ok (loc_mask df (series_isna lab))
  | LabeledOnly =>
      lab <- getitem df "label" ;; Ok (loc_mask df (series_notna lab))
  | ShowAll => Ok df
  end.

(** The three counts shown above the comments: total, labeled, unlabeled.
    (The fourth metric, the progress percentage, is a formatted float and
    is not represented.) *)
Definition statistics (df : DataFrame) : result (nat * nat * nat) :=
  let total := List.length (rows df) in
  lab1 <- getitem df "label" ;;
  let labeled_count := count_true (series_notna lab1) in
  lab2 <- getitem df "label" ;;
  let unlabeled_count := count_true (series_isna lab2) in
  Ok (total, labeled_count, unlabeled_count).

(** The view obtained from a table of comments by giving each row [l] the
    label [lab l], in a new last column. *)
Definition labeled_view (c : DataFrame) (lab : list cell -> cell)
    : DataFrame :=
  mkDF (columns c ++ ["label"]) (map (fun l => l ++ [lab l]) (rows c)).

Module Examples2.

(** The labels of the worked example: 2 for the comment t1, 3 for the
    other. *)
Definition spec_lab (l : list cell) : cell :=
  if cell_eqb (cell_at ["videoId"; "text_original"] "text_original" l)
       (Examples.s "t1")
  then Examples.n 2 else Examples.n 3.

(** The file written by the save of the worked example. *)
Definition spec_saved : DataFrame :=
  mkDF ["videoId"; "text_original"; "label"]
       [[Examples.s "vB"; Examples.s "t3"; Examples.n 1];
        [Examples.s "vA"; Examples.s "t1"; Examples.n 2];
        [Examples.s "vA"; Examples.s "t2"; Examples.n 3]].

Definition first_world : world :=
  mkWorld (mkSession None Examples.spec_view) Absent [].

(** The same comment twice under one video, both labeled 1. *)
Definition dup_comments : DataFrame :=
  mkDF ["videoId"; "text_original"]
       [[Examples.s "vA"; Examples.s "t1"]; [Examples.s "vA"; Examples.s "t1"]].

Definition dup_lab (l : list cell) : cell := Examples.n 1.

(** Widgets in which the operator chose 3 for the second row only, and an
    [int] that parses no string. *)
Definition spec_picked (p : nat) : option Z :=
  if Nat.eqb p 1 then Some 3%Z else None.

Definition untouched (p : nat) : option Z := None.

Definition no_parse (t : string) : option Z := None.

(** A stand-in for [sorted] that leaves its argument in the order given. *)
Definition keep_order (l : list cell) : result (list cell) := Ok l.

(** A comments table that comes with a label column of its own: the
    comment t1 of video vA, labeled 1 in the uploaded file. *)
Definition own_label_comments : DataFrame :=
  mkDF ["videoId"; "text_original"; "label"]
       [[Examples.s "vA"; Examples.s "t1"; Examples.n 1]].

(** A view in which a row carries the label 5. *)
Definition bad_label_view : DataFrame :=
  mkDF ["videoId"; "text_original"; "label"]
       [[Examples.s "vA"; Examples.s "t1"; Examples.n 5]].

End Examples2.

(** Tactics for the side conditions on concrete frames. *)
Ltac has_col := unfold has_column; simpl; tauto.
Ltac no_dup :=
  repeat (constructor; [simpl; intuition discriminate |]); constructor.
Ltac well_formed := unfold wf; simpl; repeat constructor.
Ltac keys_no_dup :=
  unfold keys_distinct; vm_compute;
  repeat (constructor; [simpl; intuition discriminate |]); constructor.

(** ** Facts about the pandas fragment *)

Section PandasFacts.

Lemma scalar_eqb_eq (a b : scalar) : scalar_eqb a b = true <-> a = b.
Proof.
  destruct a as [x|x], b as [y|y]; simpl; split; intro H;
    try discriminate; try (inversion H; subst).
  - apply String.eqb_eq in H. now subst.
  - apply String.eqb_refl.
  - apply Z.eqb_eq in H. now subst.
  - apply Z.eqb_refl.
Qed.

Lemma cell_eqb_eq (a b : cell) : cell_eqb a b = true <-> a = b.
Proof.
  destruct a as [x|], b as [y|]; simpl; split; intro H;
    try discriminate; try reflexivity.
  - apply scalar_eqb_eq in H. now subst.
  - inversion H; subst. now apply scalar_eqb_eq.
Qed.

Lemma elt_eqb_eq (v : scalar) (c : cell) : elt_eqb v c = true <-> c = Some v.
Proof.
  destruct c as [x|]; simpl.
  - rewrite scalar_eqb_eq. split; intro H; [now subst | now inversion H].
  - split; discriminate.
Qed.

Lemma col_index_In (name : string) (cols : list string) :
  In name cols <-> exists i, col_index name cols = Some i.
Proof.
  induction cols as [|c cs IH]; simpl.
  - split; [tauto | intros [i H]; discriminate].
  - destruct (String.eqb name c) eqn:E.
    + apply String.eqb_eq in E. subst. split; eauto.
    + apply String.eqb_neq in E. split.
      * intros [H | H]; [congruence |].
        apply IH in H. destruct H as [i H]. rewrite H. simpl. eauto.
      * intros [i H]. right. apply IH.
        destruct (col_index name cs); [eauto | discriminate].
Qed.

Lemma col_index_lt (name : string) (cols : list string) (i : nat) :
  col_index name cols = Some i -> (i < List.length cols)%nat.
Proof.
  revert i. induction cols as [|c cs IH]; simpl; intros i H.
  - discriminate.
  - destruct (String.eqb name c).
    + inversion H. lia.
    + destruct (col_index name cs) as [j|]; [|discriminate].
      inversion H. specialize (IH j eq_refl). lia.
Qed.

Lemma col_index_app (name : string) (cols extra : list string) (i : nat) :
  col_index name cols = Some i -> col_index name (cols ++ extra) = Some i.
Proof.
  revert i. induction cols as [|c cs IH]; simpl; intros i H.
  - discriminate.
  - destruct (String.eqb name c); [assumption |].
    destruct (col_index name cs) as [j|]; [|discriminate].
    now rewrite (IH j eq_refl).
Qed.

Lemma col_index_app_new (name : string) (cols : list string) :
  col_index name cols = None ->
  col_index name (cols ++ [name]) = Some (List.length cols).
Proof.
  induction cols as [|c cs IH]; simpl; intro H.
  - now rewrite String.eqb_refl.
  - destruct (String.eqb name c); [discriminate |].
    destruct (col_index name cs); [discriminate |].
    now rewrite IH.
Qed.

Lemma mem_string_In (x : string) (l : list string) :
  mem_string x l = true <-> In x l.
Proof.
  unfold mem_string. rewrite existsb_exists. split.
  - intros [y [Hy E]]. apply String.eqb_eq in E. now subst.
  - intro H. exists x. split; [assumption | apply String.eqb_refl].
Qed.

Lemma contains_In (df : DataFrame) (name : string) :
  contains df name = true <-> has_column name df.
Proof. apply mem_string_In. Qed.

(** A mask computed row by row selects the rows that satisfy the test. *)
Lemma select_map {A} (p : A -> bool) (l : list A) :
  map fst (filter snd (combine l (map p l))) = filter p l.
Proof.
  induction l as [|a l IH]; simpl; [reflexivity |].
  destruct (p a); simpl; now rewrite IH.
Qed.

Lemma mask_and_map {A} (p q : A -> bool) (l : list A) :
  mask_and (map p l) (map q l) = map (fun a => p a && q a) l.
Proof.
  unfold mask_and. induction l as [|a l IH]; simpl; [reflexivity |].
  now rewrite IH.
Qed.

Lemma loc_mask_rows (df : DataFrame) (p : list cell -> bool) :
  loc_mask df (map p (rows df)) = mkDF (columns df) (filter p (rows df)).
Proof. unfold loc_mask. now rewrite select_map. Qed.

Lemma getitem_Some (df : DataFrame) (name : string) (i : nat) :
  col_index name (columns df) = Some i ->
  getitem df name = Ok (map (cell_at (columns df) name) (rows df)).
Proof.
  intro H. unfold getitem. rewrite H. f_equal.
  apply map_ext. intro r. unfold cell_at. now rewrite H.
Qed.

Lemma getitem_has (df : DataFrame) (name : string) :
  has_column name df ->
  getitem df name = Ok (map (cell_at (columns df) name) (rows df)).
Proof.
  intro H. apply col_index_In in H. destruct H as [i H].
  eapply getitem_Some; eassumption.
Qed.

Lemma getitem_None (df : DataFrame) (name : string) :
  ~ has_column name df -> getitem df name = Raise (KeyError name).
Proof.
  intro H. unfold getitem.
  destruct (col_index name (columns df)) eqn:E; [|reflexivity].
  exfalso. apply H. apply col_index_In. eauto.
Qed.

Lemma filter_nil_iff {A} (p : A -> bool) (l : list A) :
  (forall a, In a l -> p a = false) -> filter p l = [].
Proof.
  induction l as [|a l IH]; simpl; intro H; [reflexivity |].
  rewrite (H a (or_introl eq_refl)). apply IH. intros b Hb. apply H. now right.
Qed.

Lemma filter_all {A} (p : A -> bool) (l : list A) :
  (forall a, In a l -> p a = true) -> filter p l = l.
Proof.
  induction l as [|a l IH]; simpl; intro H; [reflexivity |].
  rewrite (H a (or_introl eq_refl)). f_equal. apply IH.
  intros b Hb. apply H. now right.
Qed.

End PandasFacts.

(** ** filter_comments *)

Section FilterFacts.

Lemma series_eq_map (df : DataFrame) (name : string) (v : scalar) :
  series_eq (map (cell_at (columns df) name) (rows df)) v =
  map (fun r => elt_eqb v (cell_at (columns df) name r)) (rows df).
Proof. unfold series_eq. now rewrite map_map. Qed.

Lemma filter_comments_video (c : DataFrame) (v : scalar) :
  has_column "videoId" c ->
  filter_comments c v None None =
  Ok (mkDF (columns c) (filter (matches_video v (columns c)) (rows c))).
Proof.
  intro H. unfold filter_comments.
  rewrite (getitem_has _ _ H). simpl.
  now rewrite series_eq_map, loc_mask_rows.
Qed.

Lemma filter_comments_frame (c videos : DataFrame) (v : scalar) (f : Z) :
  has_column "videoId" c ->
  has_column "frame" videos ->
  has_column "videoId" videos ->
  filter_comments c v (Some videos) (Some f) =
  Ok (mkDF (columns c)
        (filter (fun r => existsb (cell_eqb (cell_at (columns c) "videoId" r))
                            (videos_of_frame videos f))
           (filter (matches_video v (columns c)) (rows c)))).
Proof.
  intros Hc Hf Hv. unfold filter_comments.
  rewrite (getitem_has _ _ Hc). simpl.
  rewrite series_eq_map, loc_mask_rows.
  rewrite (getitem_has _ _ Hf). simpl.
  rewrite series_eq_map, loc_mask_rows.
  rewrite getitem_has by exact Hv. simpl.
  rewrite getitem_has by exact Hc. simpl.
  unfold isin. rewrite map_map. f_equal.
  exact (loc_mask_rows
           (mkDF (columns c) (filter (matches_video v (columns c)) (rows c)))
           (fun r => existsb (cell_eqb (cell_at (columns c) "videoId" r))
                       (videos_of_frame videos f))).
Qed.

Lemma loc_mask_incl (df : DataFrame) (mask : list bool) (r : list cell) :
  In r (rows (loc_mask df mask)) -> In r (rows df).
Proof.
  unfold loc_mask. simpl. intro H. apply in_map_iff in H.
  destruct H as [[r' b] [E H]]. simpl in E. subst r'.
  apply filter_In in H. destruct H as [H _].
  eapply in_combine_l. eassumption.
Qed.

(** Every view returned by [filter_comments] is about a single video. *)
Lemma filter_comments_single_video (c : DataFrame) (v : scalar)
    (videos : option DataFrame) (frame : option Z) (view : DataFrame) :
  filter_comments c v videos frame = Ok view -> single_video view.
Proof.
  unfold filter_comments.
  destruct (getitem c "videoId") as [vid|e] eqn:Ev; simpl; [| discriminate].
  assert (Hc : has_column "videoId" c).
  { unfold getitem in Ev. apply col_index_In.
    destruct (col_index "videoId" (columns c)); [eauto | discriminate]. }
  rewrite (getitem_has _ _ Hc) in Ev. inversion Ev. subst vid.
  rewrite series_eq_map, loc_mask_rows.
  set (filtered := mkDF (columns c)
                     (filter (fun r => elt_eqb v (cell_at (columns c) "videoId" r))
                        (rows c))).
  assert (Hf : forall mask, single_video (loc_mask filtered mask)).
  { intro mask. exists (Some v). intros r Hr.
    apply loc_mask_incl in Hr. simpl in Hr. apply filter_In in Hr.
    destruct Hr as [_ Hr]. now apply elt_eqb_eq in Hr. }
  assert (H0 : single_video filtered).
  { exists (Some v). intros r Hr. simpl in Hr. apply filter_In in Hr.
    destruct Hr as [_ Hr]. now apply elt_eqb_eq in Hr. }
  destruct frame as [f|], videos as [vd|];
    try (intro H; inversion H; subst; exact H0).
  destruct (getitem vd "frame") as [fr|e]; simpl; [| discriminate].
  destruct (getitem (loc_mask vd (series_eq fr (SInt f))) "videoId")
    as [ids|e]; simpl; [| discriminate].
  destruct (getitem filtered "videoId") as [fv|e]; simpl; [| discriminate].
  intro H. inversion H. apply Hf.
Qed.

End FilterFacts.

(** C7. Whenever the comments table has a videoId column and the videos
    table has its frame and videoId columns, filtering by (v, f) and
    filtering by v alone both return, over the same columns, and the rows
    of the first are selected, in order, among the rows of the second: every
    row of the (v, f) result is a row of the v result. *)
Theorem filter_by_frame_subset (c videos : DataFrame) (v : scalar) (f : Z) :
  has_column "videoId" c ->
  has_column "frame" videos ->
  has_column "videoId" videos ->
  exists r1 r2,
    filter_comments c v (Some videos) (Some f) = Ok r1 /\
    filter_comments c v None None = Ok r2 /\
    columns r1 = columns r2 /\
    (exists keep, rows r1 = filter keep (rows r2)) /\
    (forall r, In r (rows r1) -> In r (rows r2)).
Proof.
  intros Hc Hf Hv.
  rewrite (filter_comments_frame c videos v f Hc Hf Hv).
  rewrite (filter_comments_video c v Hc).
  do 2 eexists. split; [reflexivity |]. split; [reflexivity |]. simpl.
  split; [reflexivity |]. split.
  - eexists. reflexivity.
  - intros r Hr. apply filter_In in Hr. tauto.
Qed.

(** C8. If the comments table has a videoId column and no row of it carries
    the video id v, filtering by v returns the frame with the same columns
    and no rows; so does filtering by v and a frame, when the videos table
    has its two columns.  No exception is raised. *)
Theorem filter_absent_video_empty (c : DataFrame) (v : scalar) :
  has_column "videoId" c ->
  (forall r, In r (rows c) -> cell_at (columns c) "videoId" r <> Some v) ->
  filter_comments c v None None = Ok (mkDF (columns c) []) /\
  (forall videos f,
     has_column "frame" videos -> has_column "videoId" videos ->
     filter_comments c v (Some videos) (Some f) = Ok (mkDF (columns c) [])).
Proof.
  intros Hc Habs.
  assert (E : filter (matches_video v (columns c)) (rows c) = []).
  { apply filter_nil_iff. intros r Hr. unfold matches_video.
    destruct (elt_eqb v (cell_at (columns c) "videoId" r)) eqn:Eq;
      [| reflexivity].
    apply elt_eqb_eq in Eq. now apply Habs in Hr. }
  split.
  - rewrite (filter_comments_video c v Hc). now rewrite E.
  - intros videos f Hf Hv.
    rewrite (filter_comments_frame c videos v f Hc Hf Hv). now rewrite E.
Qed.

(** C10. With a frame but no videos table, [filter_comments] behaves exactly
    as with no frame at all: it returns the rows whose videoId equals the
    given id (or raises the same KeyError when the comments table has no
    videoId column). *)
Theorem filter_frame_without_videos (c : DataFrame) (v : scalar) (f : Z) :
  filter_comments c v None (Some f) = filter_comments c v None None /\
  filter_comments c v None (Some f) =
    match col_index "videoId" (columns c) with
    | Some _ =>
        Ok (mkDF (columns c) (filter (matches_video v (columns c)) (rows c)))
    | None => Raise (KeyError "videoId")
    end.
Proof.
  split; [reflexivity |].
  change (filter_comments c v None (Some f))
    with (filter_comments c v None None).
  destruct (col_index "videoId" (columns c)) as [i|] eqn:E.
  - apply filter_comments_video. apply col_index_In. eauto.
  - unfold filter_comments, getitem. now rewrite E.
Qed.

(** ** merge_with_existing_labels *)

Section MergeFacts.

Lemma filter_map_swap {A B} (p : B -> bool) (g : A -> B) (l : list A) :
  filter p (map g l) = map g (filter (fun a => p (g a)) l).
Proof.
  induction l as [|a l IH]; simpl; [reflexivity |].
  destruct (p (g a)); simpl; now rewrite IH.
Qed.

(** The join branch computes the left join of the specification. *)
Lemma merge_join (c ex : DataFrame) :
  empty ex = false ->
  has_column "text_original" c -> has_column "videoId" c ->
  has_column "text_original" ex -> has_column "videoId" ex ->
  has_column "label" ex ->
  merge_with_existing_labels c (Some ex) = Ok (left_join_labels c ex).
Proof.
  intros Hne Hct Hcv Het Hev Hel.
  unfold merge_with_existing_labels. rewrite Hne.
  rewrite (proj2 (contains_In c _) Hct), (proj2 (contains_In ex _) Het).
  simpl andb. cbv iota.
  apply col_index_In in Hct, Hcv, Het, Hev, Hel.
  destruct Hct as [ct Hct], Hcv as [cv Hcv], Het as [et Het],
           Hev as [ev Hev], Hel as [el Hel].
  unfold getitems. simpl mapM. rewrite Het, Hev, Hel. simpl bind.
  unfold merge_left. simpl columns. simpl mapM. rewrite Hct, Hcv. simpl bind.
  simpl rows. simpl filter. simpl map.
  unfold left_join_labels. f_equal. f_equal.
  apply flat_map_ext. intro l.
  rewrite filter_map_swap. unfold persisted_labels.
  erewrite filter_ext with (g := same_key (columns c) (columns ex) l).
  2:{ intro r. unfold same_key, cell_at. rewrite Hct, Hcv, Het, Hev.
      simpl. now rewrite andb_true_r. }
  destruct (filter (same_key (columns c) (columns ex) l) (rows ex))
    as [|r0 rs]; [reflexivity |].
  simpl. f_equal.
  - unfold label_of, cell_at. now rewrite Hel.
  - rewrite !map_map. apply map_ext. intro r.
    unfold label_of, cell_at. now rewrite Hel.
Qed.

(** Without a text_original column in the persisted table the merge falls
    back to null labels. *)
Lemma merge_without_text_falls_back (c ex : DataFrame) :
  ~ has_column "text_original" ex ->
  merge_with_existing_labels c (Some ex) = Ok (setitem_None c "label").
Proof.
  intro H. unfold merge_with_existing_labels.
  destruct (empty ex); [reflexivity |].
  destruct (contains ex "text_original") eqn:E.
  - apply contains_In in E. contradiction.
  - now rewrite andb_false_r.
Qed.

(** With a text_original column but no videoId column in a non-empty
    persisted table, selecting the join columns raises. *)
Lemma merge_without_videoId_raises (c ex : DataFrame) :
  empty ex = false ->
  has_column "text_original" c -> has_column "text_original" ex ->
  ~ has_column "videoId" ex ->
  merge_with_existing_labels c (Some ex) = Raise (KeyError "videoId").
Proof.
  intros Hne Hct Het Hv. unfold merge_with_existing_labels. rewrite Hne.
  rewrite (proj2 (contains_In c _) Hct), (proj2 (contains_In ex _) Het).
  simpl andb. cbv iota.
  apply col_index_In in Het. destruct Het as [i Hi].
  unfold getitems. simpl mapM. rewrite Hi.
  destruct (col_index "videoId" (columns ex)) eqn:E; [| reflexivity].
  exfalso. apply Hv. apply col_index_In. eauto.
Qed.

Lemma setitem_None_new (c : DataFrame) :
  ~ has_column "label" c -> setitem_None c "label" = attach_null_label c.
Proof.
  intro H. unfold setitem_None.
  destruct (col_index "label" (columns c)) eqn:E; [|reflexivity].
  exfalso. apply H. apply col_index_In. eauto.
Qed.

(** Under well-formedness, the cell appended to a row is the one read under
    the appended column name. *)
Lemma cell_at_appended (cols : list string) (name : string)
    (l : list cell) (x : cell) :
  ~ In name cols -> List.length l = List.length cols ->
  cell_at (cols ++ [name]) name (l ++ [x]) = x.
Proof.
  intros Hn Hl. unfold cell_at.
  rewrite col_index_app_new.
  - unfold at_col. rewrite <- Hl. now rewrite nth_middle.
  - destruct (col_index name cols) eqn:E; [|reflexivity].
    exfalso. apply Hn. apply col_index_In. eauto.
Qed.

(** Under well-formedness, extending the columns and a row on the right
    does not disturb the cells of the columns already there. *)
Lemma cell_at_extended (cols extra : list string) (name : string)
    (l t : list cell) :
  In name cols -> List.length l = List.length cols ->
  cell_at (cols ++ extra) name (l ++ t) = cell_at cols name l.
Proof.
  intros Hn Hl. apply col_index_In in Hn. destruct Hn as [i Hi].
  unfold cell_at. rewrite (col_index_app _ _ extra _ Hi), Hi.
  unfold at_col. apply app_nth1. rewrite Hl. eapply col_index_lt; eassumption.
Qed.

Lemma in_persisted_labels (ex : DataFrame) (lcols : list string)
    (l : list cell) (x : cell) :
  In x (persisted_labels ex lcols l) <->
  exists p, In p (rows ex) /\ same_key lcols (columns ex) l p = true /\
            x = label_of ex p.
Proof.
  unfold persisted_labels. rewrite in_map_iff. split.
  - intros [p [E Hp]]. apply filter_In in Hp. exists p. intuition.
  - intros [p [Hp [Hk E]]]. exists p. split; [now symmetry |].
    apply filter_In. tauto.
Qed.

Lemma persisted_labels_nil (ex : DataFrame) (lcols : list string)
    (l : list cell) :
  persisted_labels ex lcols l = [] <->
  forall p, In p (rows ex) -> same_key lcols (columns ex) l p = false.
Proof.
  split.
  - intros E p Hp.
    destruct (same_key lcols (columns ex) l p) eqn:K; [|reflexivity].
    assert (H : In (label_of ex p) (persisted_labels ex lcols l)).
    { apply in_persisted_labels. eauto. }
    rewrite E in H. contradiction.
  - intro H. unfold persisted_labels.
    rewrite filter_nil_iff; [reflexivity | assumption].
Qed.

Lemma in_left_join_rows (c ex : DataFrame) (r : list cell) :
  In r (rows (left_join_labels c ex)) <->
  exists l, In l (rows c) /\
    ((persisted_labels ex (columns c) l = [] /\ r = l ++ [None]) \/
     (exists x, In x (persisted_labels ex (columns c) l) /\ r = l ++ [x])).
Proof.
  unfold left_join_labels. simpl rows. rewrite in_flat_map.
  split; intros [l [Hl H]]; exists l; (split; [assumption |]).
  - destruct (persisted_labels ex (columns c) l) as [|y ys] eqn:E.
    + left. simpl in H. intuition.
    + right. change (In r (map (fun x => l ++ [x]) (y :: ys))) in H.
      apply in_map_iff in H. destruct H as [x [Ex Hx]]. eauto.
  - destruct H as [[E Er] | [x [Hx Er]]].
    + rewrite E. simpl. now left.
    + destruct (persisted_labels ex (columns c) l) as [|y ys] eqn:E.
      * contradiction.
      * change (In r (map (fun x => l ++ [x]) (y :: ys))).
        apply in_map_iff. eauto.
Qed.

End MergeFacts.

Section MergeTwice.

Lemma set_nth_idem (i : nat) (x : cell) (r : list cell) :
  set_nth i x (set_nth i x r) = set_nth i x r.
Proof.
  revert i. induction r as [|y r IH]; intros [|i]; simpl;
    try reflexivity. now rewrite IH.
Qed.

Lemma set_nth_last (r : list cell) (x : cell) :
  set_nth (List.length r) x (r ++ [x]) = r ++ [x].
Proof. induction r as [|y r IH]; simpl; [reflexivity | now rewrite IH]. Qed.

Lemma wf_row (df : DataFrame) (r : list cell) :
  wf df -> In r (rows df) -> List.length r = List.length (columns df).
Proof. unfold wf. rewrite Forall_forall. auto. Qed.

(** Assigning the null label column twice is the same as assigning it
    once. *)
Lemma setitem_None_idem (c : DataFrame) :
  wf c ->
  setitem_None (setitem_None c "label") "label" = setitem_None c "label".
Proof.
  intro Hwf. unfold setitem_None at 2 3.
  destruct (col_index "label" (columns c)) as [i|] eqn:E.
  - unfold setitem_None. simpl columns. rewrite E. f_equal. simpl rows.
    rewrite map_map. apply map_ext. intro r. apply set_nth_idem.
  - unfold setitem_None. simpl columns.
    rewrite (col_index_app_new _ _ E). f_equal. simpl rows.
    rewrite map_map. apply map_ext_in. intros r Hr.
    rewrite <- (wf_row c r Hwf Hr). apply set_nth_last.
Qed.

Lemma setitem_None_has (c : DataFrame) (name : string) :
  name <> "label" ->
  contains (setitem_None c "label") name = contains c name.
Proof.
  intro Hn. unfold setitem_None.
  destruct (col_index "label" (columns c)); [reflexivity |].
  unfold contains. simpl columns. rewrite existsb_app. simpl.
  apply String.eqb_neq in Hn. rewrite Hn. now rewrite !orb_false_r.
Qed.

Lemma mapM_Ok_inv {A B} (f : A -> result B) (x : A) (l : list A)
    (bs : list B) :
  mapM f (x :: l) = Ok bs ->
  exists b bs', f x = Ok b /\ mapM f l = Ok bs' /\ bs = b :: bs'.
Proof.
  simpl. destruct (f x) as [b|e]; simpl; [| discriminate].
  destruct (mapM f l) as [bs'|e]; simpl; [| discriminate].
  intro H. inversion H. eauto.
Qed.

Lemma index_Ok_has (cols : list string) (name : string) (i : nat) :
  match col_index name cols with
  | Some j => Ok j
  | None => Raise (KeyError name)
  end = Ok i -> In name cols.
Proof.
  destruct (col_index name cols) eqn:E; [| discriminate].
  intros _. apply col_index_In. eauto.
Qed.

(** The two ways the merge can return: the null-label fallback, taken
    again on the result, or the join. *)
Lemma merge_cases (c : DataFrame) (e : option DataFrame) (m : DataFrame) :
  merge_with_existing_labels c e = Ok m ->
  (m = setitem_None c "label" /\
   merge_with_existing_labels m e = Ok (setitem_None m "label")) \/
  (exists ex, e = Some ex /\ empty ex = false /\
     has_column "text_original" c /\ has_column "videoId" c /\
     has_column "text_original" ex /\ has_column "videoId" ex /\
     has_column "label" ex /\ m = left_join_labels c ex).
Proof.
  intro H. pose proof H as H0. unfold merge_with_existing_labels in H.
  destruct e as [ex|].
  - destruct (empty ex) eqn:He.
    + left. inversion H. subst m. split; [reflexivity |].
      simpl. now rewrite He.
    + destruct (contains c "text_original" && contains ex "text_original")
        eqn:Hc.
      * right. exists ex.
        apply andb_true_iff in Hc. destruct Hc as [Hct Het].
        apply contains_In in Hct, Het.
        unfold getitems in H.
        destruct (mapM _ ["text_original"; "videoId"; "label"])
          as [idxs|err] eqn:Hm; simpl in H; [| discriminate].
        apply mapM_Ok_inv in Hm. destruct Hm as [i0 [t0 [_ [Hm _]]]].
        apply mapM_Ok_inv in Hm. destruct Hm as [i1 [t1 [Hev [Hm _]]]].
        apply mapM_Ok_inv in Hm. destruct Hm as [i2 [t2 [Hel _]]].
        apply index_Ok_has in Hev, Hel.
        unfold merge_left in H.
        destruct (mapM _ ["text_original"; "videoId"]) as [lk|err] eqn:Hl
          in H; simpl in H; [| discriminate].
        apply mapM_Ok_inv in Hl. destruct Hl as [j0 [u0 [_ [Hl _]]]].
        apply mapM_Ok_inv in Hl. destruct Hl as [j1 [u1 [Hcv _]]].
        apply index_Ok_has in Hcv.
        rewrite (merge_join c ex He Hct Hcv Het Hev Hel) in H0.
        inversion H0. repeat split; assumption.
      * left. inversion H. subst m. split; [reflexivity |].
        simpl. rewrite He.
        rewrite setitem_None_has by discriminate. now rewrite Hc.
  - left. inversion H. subst m. split; reflexivity.
Qed.

Lemma wf_left_join (c ex : DataFrame) :
  wf c -> wf (left_join_labels c ex).
Proof.
  intro Hwf. unfold wf. apply Forall_forall. intros r Hr.
  apply in_left_join_rows in Hr. destruct Hr as [l [Hl H]].
  pose proof (wf_row c l Hwf Hl) as Hlen.
  simpl columns. rewrite length_app. simpl.
  destruct H as [[_ E] | [x [_ E]]]; subst r; rewrite length_app; simpl; lia.
Qed.

Lemma left_join_has_label (c ex : DataFrame) :
  has_column "label" (left_join_labels c ex).
Proof.
  unfold has_column, left_join_labels, joined_name. simpl columns.
  apply in_or_app.
  destruct (mem_string "label" (columns c)) eqn:E.
  - left. now apply mem_string_In.
  - right. now left.
Qed.

Lemma nth_set_nth_other (i j : nat) (x : cell) (r : list cell) :
  i <> j -> nth j (set_nth i x r) None = nth j r None.
Proof.
  revert i j. induction r as [|y r IH]; intros [|i] [|j] H; simpl;
    try reflexivity; try congruence.
  apply IH. congruence.
Qed.

Lemma col_index_inj (a b : string) (cols : list string) (i : nat) :
  col_index a cols = Some i -> col_index b cols = Some i -> a = b.
Proof.
  revert i. induction cols as [|c cs IH]; simpl; intros i Ha Hb.
  - discriminate.
  - destruct (String.eqb a c) eqn:Ea, (String.eqb b c) eqn:Eb.
    + apply String.eqb_eq in Ea, Eb. congruence.
    + destruct (col_index b cs); simpl in Hb; congruence.
    + destruct (col_index a cs); simpl in Ha; congruence.
    + destruct (col_index a cs) as [ia|], (col_index b cs) as [ib|];
        simpl in *; try discriminate.
      apply (IH ia); congruence.
Qed.

(** The merge leaves the videoId of every row as it was: a view of a single
    video stays one. *)
Lemma merge_single_video (c : DataFrame) (e : option DataFrame)
    (m : DataFrame) :
  wf c -> has_column "videoId" c ->
  merge_with_existing_labels c e = Ok m ->
  single_video c -> single_video m.
Proof.
  intros Hwf Hv H [x Hx]. exists x. apply merge_cases in H.
  destruct H as [[Em _] | [ex [_ [_ [_ [_ [_ [_ [_ Em]]]]]]]]]; subst m.
  - unfold setitem_None.
    destruct (col_index "label" (columns c)) as [i|] eqn:E; simpl.
    + intros r Hr. apply in_map_iff in Hr. destruct Hr as [l [El Hl]].
      subst r. rewrite <- (Hx l Hl). unfold cell_at.
      destruct (col_index "videoId" (columns c)) as [j|] eqn:Ej;
        [| reflexivity].
      apply nth_set_nth_other. intro Eq. subst j.
      pose proof (col_index_inj _ _ _ _ E Ej). discriminate.
    + intros r Hr. apply in_map_iff in Hr. destruct Hr as [l [El Hl]].
      subst r. rewrite <- (Hx l Hl).
      apply cell_at_extended; [exact Hv | now apply wf_row].
  - intros r Hr. apply in_left_join_rows in Hr.
    destruct Hr as [l [Hl [[_ E] | [y [_ E]]]]]; subst r;
      rewrite <- (Hx l Hl); simpl columns;
      (apply cell_at_extended; [exact Hv | now apply wf_row]).
Qed.

Lemma wf_loc_mask (df : DataFrame) (mask : list bool) :
  wf df -> wf (loc_mask df mask).
Proof.
  unfold wf. rewrite !Forall_forall. intros H r Hr.
  apply H. eapply loc_mask_incl. eassumption.
Qed.

(** The view that [main] labels, the merge of a filtered table, is about a
    single video. *)
Lemma main_view_single_video (comments : DataFrame) (v : scalar)
    (videos : option DataFrame) (frame : option Z)
    (e : option DataFrame) (filtered view : DataFrame) :
  wf comments ->
  filter_comments comments v videos frame = Ok filtered ->
  merge_with_existing_labels filtered e = Ok view ->
  single_video view.
Proof.
  intros Hwf Hf Hm.
  pose proof (filter_comments_single_video _ _ _ _ _ Hf) as Hs.
  assert (Hc : columns filtered = columns comments /\ wf filtered).
  { unfold filter_comments in Hf.
    destruct (getitem comments "videoId") as [vid|err]; simpl in Hf;
      [| discriminate].
    destruct frame as [f|], videos as [vd|];
      try (inversion Hf; split; [reflexivity | now apply wf_loc_mask]).
    destruct (getitem vd "frame") as [fr|err]; simpl in Hf; [| discriminate].
    destruct (getitem (loc_mask vd (series_eq fr (SInt f))) "videoId")
      as [ids|err]; simpl in Hf; [| discriminate].
    destruct (getitem (loc_mask comments (series_eq vid v)) "videoId")
      as [fv|err]; simpl in Hf; [| discriminate].
    inversion Hf. split; [reflexivity |].
    now apply wf_loc_mask, wf_loc_mask. }
  destruct Hc as [Hc Hwff].
  assert (Hv : has_column "videoId" filtered).
  { unfold has_column. rewrite Hc. unfold filter_comments, getitem in Hf.
    apply col_index_In.
    destruct (col_index "videoId" (columns comments)); [eauto | discriminate]. }
  exact (merge_single_video filtered e view Hwff Hv Hm Hs).
Qed.

(** A merge that returns from the join branch is the left join, and the
    columns the join needs were there. *)
Lemma merge_join_inv (c ex m : DataFrame) :
  empty ex = false ->
  has_column "text_original" c -> has_column "text_original" ex ->
  merge_with_existing_labels c (Some ex) = Ok m ->
  m = left_join_labels c ex /\
  has_column "videoId" c /\ has_column "videoId" ex /\
  has_column "label" ex.
Proof.
  intros He Hct Het H. pose proof H as H0.
  unfold merge_with_existing_labels in H. rewrite He in H.
  rewrite (proj2 (contains_In c _) Hct), (proj2 (contains_In ex _) Het) in H.
  simpl andb in H. cbv iota in H. unfold getitems in H.
  destruct (mapM _ ["text_original"; "videoId"; "label"])
    as [idxs|err] eqn:Hm; simpl in H; [| discriminate].
  apply mapM_Ok_inv in Hm. destruct Hm as [i0 [t0 [_ [Hm _]]]].
  apply mapM_Ok_inv in Hm. destruct Hm as [i1 [t1 [Hev [Hm _]]]].
  apply mapM_Ok_inv in Hm. destruct Hm as [i2 [t2 [Hel _]]].
  apply index_Ok_has in Hev, Hel.
  unfold merge_left in H.
  destruct (mapM _ ["text_original"; "videoId"]) as [lk|err] eqn:Hl
    in H; simpl in H; [| discriminate].
  apply mapM_Ok_inv in Hl. destruct Hl as [j0 [u0 [_ [Hl _]]]].
  apply mapM_Ok_inv in Hl. destruct Hl as [j1 [u1 [Hcv _]]].
  apply index_Ok_has in Hcv.
  rewrite (merge_join c ex He Hct Hcv Het Hev Hel) in H0.
  inversion H0. repeat split; assumption.
Qed.

Lemma same_key_extended (c : DataFrame) (extra rcols : list string)
    (l t p : list cell) :
  wf c -> has_column "text_original" c -> has_column "videoId" c ->
  In l (rows c) ->
  same_key (columns c ++ extra) rcols (l ++ t) p
  = same_key (columns c) rcols l p.
Proof.
  intros Hwf Ht Hv Hl. unfold same_key.
  rewrite !cell_at_extended; auto using wf_row.
Qed.

End MergeTwice.

(** C6, as amended.  For a well-formed current table with text_original
    and videoId columns and no label column of its own: when there are no
    prior labels (no file, or a file without rows) the merge returns every
    row extended with a null label; otherwise, for a persisted table with
    rows and a text_original column, a merge that returns is the left
    join: each current row appears with the label of every persisted row
    sharing its (text_original, videoId) key, and with a null label when
    no persisted row shares it, and the result has no other rows. *)
Theorem merge_attaches_or_joins (c : DataFrame) :
  has_column "text_original" c -> has_column "videoId" c ->
  ~ has_column "label" c -> wf c ->
  merge_with_existing_labels c None = Ok (attach_null_label c) /\
  (forall ex, empty ex = true ->
     merge_with_existing_labels c (Some ex) = Ok (attach_null_label c)) /\
  (forall r, In r (rows (attach_null_label c)) ->
     label_of (attach_null_label c) r = None) /\
  (forall ex m,
     empty ex = false -> has_column "text_original" ex ->
     merge_with_existing_labels c (Some ex) = Ok m ->
     m = left_join_labels c ex /\
     columns m = columns c ++ ["label"] /\
     (forall l, In l (rows c) ->
        (forall p, In p (rows ex) ->
           same_key (columns c) (columns ex) l p = true ->
           In (l ++ [label_of ex p]) (rows m)) /\
        ((forall p, In p (rows ex) ->
            same_key (columns c) (columns ex) l p = false) ->
         In (l ++ [None]) (rows m))) /\
     (forall r, In r (rows m) ->
        exists l x,
          In l (rows c) /\ r = l ++ [x] /\ label_of m r = x /\
          ((exists p, In p (rows ex) /\
              same_key (columns c) (columns ex) l p = true /\
              x = label_of ex p) \/
           ((forall p, In p (rows ex) ->
               same_key (columns c) (columns ex) l p = false) /\
            x = None)))) /\
  (forall ex, empty ex = false -> has_column "text_original" ex ->
     receives_persisted_labels c ex).
Proof.
  intros Ht Hv Hnl Hwf.
  assert (Hjn : joined_name (columns c) = "label").
  { unfold joined_name.
    destruct (mem_string "label" (columns c)) eqn:E; [|reflexivity].
    apply mem_string_In in E. contradiction. }
  assert (Hrow : forall ex r, In r (rows (left_join_labels c ex)) ->
    exists l x,
      In l (rows c) /\ r = l ++ [x] /\
      label_of (left_join_labels c ex) r = x /\
      ((exists p, In p (rows ex) /\
          same_key (columns c) (columns ex) l p = true /\
          x = label_of ex p) \/
       ((forall p, In p (rows ex) ->
           same_key (columns c) (columns ex) l p = false) /\
        x = None))).
  { intros ex r Hr. apply in_left_join_rows in Hr.
    destruct Hr as [l [Hl H]].
    assert (Hlen : List.length l = List.length (columns c))
      by now apply wf_row.
    assert (Hlab : forall x,
      label_of (left_join_labels c ex) (l ++ [x]) = x).
    { intro x. unfold label_of. simpl columns. rewrite Hjn.
      now apply cell_at_appended. }
    destruct H as [[E Er] | [x [Hx Er]]]; subst r.
    - exists l, None. repeat split; try assumption; [apply Hlab |].
      right. split; [| reflexivity]. now apply persisted_labels_nil.
    - exists l, x. repeat split; try assumption; [apply Hlab |].
      left. now apply in_persisted_labels. }
  split; [| split; [| split; [| split]]].
  - simpl. now rewrite setitem_None_new.
  - intros ex He. simpl. rewrite He. now rewrite setitem_None_new.
  - intros r Hr. simpl in Hr. apply in_map_iff in Hr.
    destruct Hr as [l [E Hl]]. subst r. unfold label_of. simpl columns.
    apply cell_at_appended; [assumption | now apply wf_row].
  - intros ex m Hne Het Hm.
    destruct (merge_join_inv c ex m Hne Ht Het Hm) as [Em _]. subst m.
    split; [reflexivity |].
    split; [simpl; now rewrite Hjn |]. split.
    + intros l Hl. split.
      * intros p Hp Hk. apply in_left_join_rows. exists l.
        split; [assumption |]. right. exists (label_of ex p).
        split; [| reflexivity]. apply in_persisted_labels. eauto.
      * intro Hno. apply in_left_join_rows. exists l.
        split; [assumption |]. left. split; [| reflexivity].
        now apply persisted_labels_nil.
    + apply Hrow.
  - intros ex Hne Het m Hm r Hr.
    destruct (merge_join_inv c ex m Hne Ht Het Hm) as [Em _]. subst m.
    destruct (Hrow ex r Hr) as [l [x [Hl [Er [Hlab Hx]]]]]. subst r.
    assert (Hk : forall p,
      same_key (columns (left_join_labels c ex)) (columns ex) (l ++ [x]) p
      = same_key (columns c) (columns ex) l p).
    { intro p. simpl columns. now apply same_key_extended. }
    destruct Hx as [[p [Hp [Hs Ex]]] | [Hno Ex]].
    + left. exists p. split; [assumption |]. rewrite Hk.
      split; [assumption |]. now rewrite Hlab.
    + right. split; [| now rewrite Hlab].
      intros p Hp. rewrite Hk. now apply Hno.
Qed.

(** C6, as stated, fails for a comments table that has a label column of
    its own: the join leaves that column as it is, so the row keeps the
    label 1 of the uploaded file although the persisted row with its key
    has label 2. *)
Lemma merge_keeps_own_label :
  ~ receives_persisted_labels Examples2.own_label_comments
      Examples.spec_persisted.
Proof.
  intro H.
  specialize (H (mkDF ["videoId"; "text_original"; "label"; "label_existing"]
                   [[Examples.s "vA"; Examples.s "t1"; Examples.n 1;
                     Examples.n 2]])
                eq_refl
                [Examples.s "vA"; Examples.s "t1"; Examples.n 1;
                 Examples.n 2]
                (or_introl eq_refl)).
  destruct H as [[p [Hp [Hk Hl]]] | [Hno _]].
  - simpl in Hp. destruct Hp as [<- | [<- | []]].
    + vm_compute in Hl. discriminate.
    + vm_compute in Hk. discriminate.
  - specialize (Hno [Examples.s "vA"; Examples.s "t1"; Examples.n 2]
                  (or_introl eq_refl)).
    vm_compute in Hno. discriminate.
Qed.

(** C3. A persisted table that has a text_original column but no videoId
    column makes the merge raise KeyError instead of falling back to null
    labels. *)
Theorem merge_missing_videoId_raises :
  merge_with_existing_labels Examples.comments
    (Some Examples.persisted_no_videoId)
  = Raise (KeyError "videoId").
Proof. reflexivity. Qed.

(** C5. Let [m] be the view returned by merging a well-formed table with a
    persisted set.  Merging [m] with the same persisted set again returns a
    view whose columns extend those of [m] and whose rows are the rows of
    [m], each possibly extended on the right: every row of the second
    result extends a row of [m] and carries that row's label, and every row
    of [m] is extended by some row of the second result with its label
    unchanged. *)
Theorem merge_idempotent_on_labels (c : DataFrame) (e : option DataFrame)
    (m : DataFrame) :
  wf c ->
  merge_with_existing_labels c e = Ok m ->
  exists m2,
    merge_with_existing_labels m e = Ok m2 /\
    (exists extra, columns m2 = columns m ++ extra) /\
    (forall r2, In r2 (rows m2) ->
       exists r t, In r (rows m) /\ r2 = r ++ t /\
                   label_of m2 r2 = label_of m r) /\
    (forall r, In r (rows m) ->
       exists t, In (r ++ t) (rows m2) /\
                 label_of m2 (r ++ t) = label_of m r).
Proof.
  intros Hwf H. apply merge_cases in H.
  destruct H as [[Em H2] | [ex [Ee [Hne [Hct [Hcv [Het [Hev [Hel Em]]]]]]]]].
  - exists m. rewrite H2. subst m. rewrite (setitem_None_idem c Hwf).
    split; [reflexivity |]. split; [exists []; now rewrite app_nil_r |].
    split.
    + intros r2 Hr. exists r2, []. rewrite app_nil_r. auto.
    + intros r Hr. exists []. rewrite app_nil_r. auto.
  - subst e. exists (left_join_labels m ex).
    assert (Hwm : wf m) by (subst m; now apply wf_left_join).
    assert (Hlm : has_column "label" m)
      by (subst m; apply left_join_has_label).
    assert (Htm : has_column "text_original" m).
    { subst m. unfold has_column. simpl. apply in_or_app. now left. }
    assert (Hvm : has_column "videoId" m).
    { subst m. unfold has_column. simpl. apply in_or_app. now left. }
    split; [now apply merge_join |].
    split; [eexists; reflexivity |].
    assert (Hlab : forall r x, In r (rows m) ->
      label_of (left_join_labels m ex) (r ++ [x]) = label_of m r).
    { intros r x Hr. unfold label_of. simpl columns.
      apply cell_at_extended; [exact Hlm | now apply wf_row]. }
    split.
    + intros r2 Hr2. apply in_left_join_rows in Hr2.
      destruct Hr2 as [r [Hr [[_ E] | [x [_ E]]]]]; subst r2.
      * exists r, [None]. auto.
      * exists r, [x]. auto.
    + intros r Hr.
      destruct (persisted_labels ex (columns m) r) as [|x xs] eqn:E.
      * exists [None]. split; [| now apply Hlab].
        apply in_left_join_rows. exists r. split; [assumption |].
        left. auto.
      * exists [x]. split; [| now apply Hlab].
        apply in_left_join_rows. exists r. split; [assumption |].
        right. exists x. rewrite E. split; [now left | reflexivity].
Qed.

(** ** The save block *)

Section SaveFacts.

Lemma existsb_map {A B} (q : B -> bool) (g : A -> B) (l : list A) :
  existsb q (map g l) = existsb (fun a => q (g a)) l.
Proof.
  induction l as [|a l IH]; simpl; [reflexivity | now rewrite IH].
Qed.

(** What [other_labels] computes: a persisted row is set aside unless its
    text occurs in the view and its videoId occurs in the view. *)
Lemma other_labels_rows (ex view : DataFrame) :
  has_column "text_original" ex -> has_column "videoId" ex ->
  has_column "text_original" view -> has_column "videoId" view ->
  other_labels ex view =
  Ok (mkDF (columns ex)
        (filter (fun p => negb (text_in view (columns ex) p
                                && video_in view (columns ex) p))
           (rows ex))).
Proof.
  intros Het Hev Hvt Hvv. unfold other_labels.
  rewrite (getitem_has _ _ Het). simpl.
  rewrite (getitem_has _ _ Hvt). simpl.
  rewrite (getitem_has _ _ Hev). simpl.
  rewrite (getitem_has _ _ Hvv). simpl.
  unfold isin. rewrite !map_map, mask_and_map.
  unfold mask_not. rewrite map_map.
  rewrite (loc_mask_rows ex). f_equal. f_equal.
  apply filter_ext. intro p. unfold text_in, video_in.
  now rewrite !existsb_map.
Qed.

(** On a view of a single video the two membership tests together amount
    to the test on pairs. *)
Lemma single_video_key_in (view : DataFrame) (cols : list string)
    (p : list cell) :
  single_video view ->
  text_in view cols p && video_in view cols p = key_in view cols p.
Proof.
  intros [c Hc]. apply eq_true_iff_eq.
  unfold text_in, video_in, key_in.
  rewrite andb_true_iff, !existsb_exists. split.
  - intros [[v1 [H1 E1]] [v2 [H2 E2]]]. exists v1. split; [assumption |].
    unfold same_key. rewrite E1. simpl.
    rewrite (Hc v1 H1). now rewrite <- (Hc v2 H2).
  - intros [v [Hv E]]. unfold same_key in E.
    apply andb_true_iff in E. destruct E as [E1 E2]. split; eauto.
Qed.

Lemma cell_at_head_other (c n : string) (cs : list string) (x : cell)
    (xs : list cell) :
  n <> c -> cell_at (c :: cs) n (x :: xs) = cell_at cs n xs.
Proof.
  intro H. unfold cell_at. simpl. apply String.eqb_neq in H. rewrite H.
  now destruct (col_index n cs).
Qed.

(** Rearranging a well-formed row for its own, duplicate-free columns
    leaves it as it is. *)
Lemma reindex_id (cols : list string) (r : list cell) :
  NoDup cols -> List.length r = List.length cols -> reindex cols cols r = r.
Proof.
  unfold reindex. revert r.
  induction cols as [|c cs IH]; intros [|x xs] Hnd Hlen;
    try discriminate; [reflexivity |].
  inversion Hnd as [|? ? Hc Hcs]; subst. simpl.
  f_equal.
  - unfold cell_at. simpl. now rewrite String.eqb_refl.
  - transitivity (map (fun n => cell_at cs n xs) cs).
    + apply map_ext_in. intros n Hn. apply cell_at_head_other.
      intro E. subst. contradiction.
    + apply IH; [assumption | simpl in Hlen; lia].
Qed.

Lemma concat_same_columns (a b : DataFrame) :
  columns a = columns b -> NoDup (columns a) -> wf a -> wf b ->
  concat a b = mkDF (columns a) (rows a ++ rows b).
Proof.
  intros Hc Hnd Ha Hb. unfold concat.
  assert (E : filter (fun n => negb (mem_string n (columns a))) (columns b)
              = []).
  { apply filter_nil_iff. intros n Hn. rewrite <- Hc in Hn.
    apply mem_string_In in Hn. now rewrite Hn. }
  rewrite E, app_nil_r. f_equal. f_equal.
  - rewrite <- (map_id (rows a)) at 2. apply map_ext_in. intros r Hr.
    apply reindex_id; [assumption | now apply wf_row].
  - rewrite <- (map_id (rows b)) at 2. apply map_ext_in. intros r Hr.
    rewrite <- Hc. apply reindex_id; [assumption |].
    rewrite Hc. now apply wf_row.
Qed.

Lemma getitem_notna (df : DataFrame) (lab : list cell) :
  getitem df "label" = Ok lab ->
  loc_mask df (series_notna lab) =
  mkDF (columns df) (filter (labeled (columns df)) (rows df)).
Proof.
  unfold getitem. destruct (col_index "label" (columns df)) as [i|] eqn:E;
    [| discriminate].
  intro H. inversion H. unfold series_notna. rewrite map_map.
  rewrite (loc_mask_rows df). f_equal. apply filter_ext. intro r.
  unfold labeled, cell_at. now rewrite E.
Qed.

(** Whatever the save block writes has a label in every row. *)
Lemma all_labeled_labeled (e : option DataFrame) (view df : DataFrame) :
  all_labeled e view = Ok df ->
  Forall (fun r => labeled (columns df) r = true) (rows df).
Proof.
  unfold all_labeled.
  destruct (match e with
            | Some existing =>
                others <- other_labels existing view ;;
                Ok (concat others view)
            | None => Ok view
            end) as [combined|err]; simpl; [| discriminate].
  destruct (getitem combined "label") as [lab|err] eqn:El; simpl;
    [| discriminate].
  intro H. inversion H. rewrite (getitem_notna _ _ El). simpl.
  apply Forall_forall. intros r Hr. apply filter_In in Hr. tauto.
Qed.

(** The frame written when the persisted file and the view have the same
    columns. *)
Lemma all_labeled_same_columns (ex view : DataFrame) :
  columns ex = columns view -> NoDup (columns view) -> wf ex -> wf view ->
  has_column "text_original" view -> has_column "videoId" view ->
  has_column "label" view ->
  all_labeled (Some ex) view =
  Ok (mkDF (columns view)
        (filter (labeled (columns view))
           (filter (fun p => negb (text_in view (columns ex) p
                                   && video_in view (columns ex) p))
              (rows ex))
         ++ filter (labeled (columns view)) (rows view))).
Proof.
  intros Hc Hnd Hwe Hwv Ht Hv Hl. unfold all_labeled.
  rewrite other_labels_rows; try assumption;
    try (unfold has_column; rewrite Hc; assumption).
  simpl bind. rewrite concat_same_columns; try assumption.
  - simpl columns. simpl rows. rewrite Hc.
    match goal with
    | |- bind (getitem ?d0 _) _ = _ => set (d := d0)
    end.
    assert (E : getitem d "label" =
                Ok (map (cell_at (columns d) "label") (rows d)))
      by (apply getitem_has; exact Hl).
    rewrite E. unfold bind. rewrite (getitem_notna _ _ E).
    subst d. simpl. now rewrite filter_app.
  - simpl. now rewrite Hc.
  - simpl. unfold wf in *. simpl. apply Forall_forall. intros r Hr.
    apply filter_In in Hr. rewrite Forall_forall in Hwe. now apply Hwe.
Qed.

Lemma all_labeled_first (view : DataFrame) :
  has_column "label" view ->
  all_labeled None view =
  Ok (mkDF (columns view) (filter (labeled (columns view)) (rows view))).
Proof.
  intro Hl. unfold all_labeled. simpl bind.
  pose proof (getitem_has _ _ Hl) as E. rewrite E. simpl bind.
  now rewrite (getitem_notna _ _ E).
Qed.

End SaveFacts.

(** C1. When both frames have their text_original and videoId columns and
    the view is the frame of a single video that main builds (all its rows
    carry the same videoId), the first step of save returns, and it removes
    from the persisted dataset exactly the rows whose
    (text_original, videoId) pair is the pair of a row of the view; the
    other rows are kept, in order.  A persisted row is kept precisely when
    no single row of the view has both its text and its videoId: it does
    not matter in which rows of the view its text or its videoId occur
    separately. *)
Theorem other_labels_removes (ex view : DataFrame) :
  has_column "text_original" ex -> has_column "videoId" ex ->
  has_column "text_original" view -> has_column "videoId" view ->
  single_video view ->
  exists others,
    other_labels ex view = Ok others /\
    columns others = columns ex /\
    rows others =
      filter (fun p => negb (key_in view (columns ex) p)) (rows ex) /\
    (forall p, In p (rows ex) ->
       (In p (rows others) <-> key_in view (columns ex) p = false)).
Proof.
  intros Het Hev Hvt Hvv Hs.
  assert (E : filter (fun p => negb (text_in view (columns ex) p
                                     && video_in view (columns ex) p))
                (rows ex)
              = filter (fun p => negb (key_in view (columns ex) p)) (rows ex)).
  { apply filter_ext. intro p.
    now rewrite (single_video_key_in view (columns ex) p Hs). }
  eexists. split; [exact (other_labels_rows ex view Het Hev Hvt Hvv) |].
  split; [reflexivity |]. simpl rows. rewrite E. split; [reflexivity |].
  intros p Hp. rewrite filter_In. rewrite negb_true_iff. tauto.
Qed.

(** On a frame over several videos, which main never builds, the two
    membership tests of the mask are not the test on pairs: there a
    persisted row whose text is in one row and whose videoId is in another
    is removed although its pair is in no row. *)
Lemma mask_tests_are_independent :
  ~ removes_matching_pairs Examples.cross_persisted Examples.cross_view.
Proof.
  intros [others [E R]]. vm_compute in E. inversion E. subst others.
  vm_compute in R. discriminate.
Qed.

(** C4. Pressing the save button either raises before anything is written,
    leaving the world as it was, or hands exactly one frame to the file
    writer, and every row of that frame has a non-null label. *)
Theorem saved_rows_are_labeled
    (to_csv : DataFrame -> file_state -> result unit * file_state)
    (w : world) :
  (exists e,
     all_labeled (existing_labels (mem w)) (filtered_comments (mem w))
       = Raise e /\
     save_button to_csv w = (Raise e, w)) \/
  (exists df,
     all_labeled (existing_labels (mem w)) (filtered_comments (mem w))
       = Ok df /\
     disk (snd (save_button to_csv w)) = snd (to_csv df (disk w)) /\
     Forall (fun r => notna (label_of df r) = true) (rows df)).
Proof.
  unfold save_button.
  destruct (all_labeled (existing_labels (mem w)) (filtered_comments (mem w)))
    as [df|e] eqn:E.
  - right. exists df. split; [reflexivity |]. split.
    + unfold save_labeled_data.
      destruct (to_csv df (disk w)) as [[u|e] d]; simpl; [reflexivity |].
      destruct (is_Exception e); reflexivity.
    + exact (all_labeled_labeled _ _ _ E).
  - left. exists e. auto.
Qed.

(** C9. If every error the file writer can raise on this frame is an
    instance of Exception, [save_labeled_data] returns a boolean and raises
    nothing: true exactly when the write succeeded, false exactly when it
    raised; the frames held in memory are the same after the call as
    before. *)
Theorem save_labeled_data_reports
    (to_csv : DataFrame -> file_state -> result unit * file_state)
    (df : DataFrame) (w : world) :
  (forall e, fst (to_csv df (disk w)) = Raise e -> is_Exception e = true) ->
  exists b w',
    save_labeled_data to_csv df w = (Ok b, w') /\
    mem w' = mem w /\
    (b = true <-> exists u, fst (to_csv df (disk w)) = Ok u) /\
    (b = false <-> exists e, fst (to_csv df (disk w)) = Raise e).
Proof.
  intro Hexn. unfold save_labeled_data.
  destruct (to_csv df (disk w)) as [[u|e] d] eqn:E; simpl in *.
  - exists true. eexists. split; [reflexivity |]. split; [reflexivity |].
    split; split; intro H; try discriminate; eauto.
    destruct H as [e H]. discriminate.
  - rewrite (Hexn e eq_refl).
    exists false. eexists. split; [reflexivity |]. split; [reflexivity |].
    split; split; intro H; try discriminate; eauto.
    destruct H as [u' H]. discriminate.
Qed.

(** C2. Take a session whose persisted dataset [ex] was loaded from the
    file, all of its rows labeled, and whose view has the same,
    duplicate-free columns (among them text_original, videoId and label)
    and rows of a single video.  If the write succeeds and stores the frame
    it was given, pressing save and loading the file again yields the
    persisted rows whose (text_original, videoId) pair is in no row of the
    view, followed by the rows of the view that have a label; in
    particular every such persisted row is still on file. *)
Theorem save_reload_roundtrip
    (to_csv : DataFrame -> file_state -> result unit * file_state)
    (w : world) (ex view : DataFrame) :
  fst (load_existing_labels w) = Some ex ->
  mem w = mkSession (Some ex) view ->
  columns ex = columns view -> NoDup (columns view) ->
  wf ex -> wf view ->
  has_column "text_original" view -> has_column "videoId" view ->
  has_column "label" view ->
  single_video view ->
  (forall p, In p (rows ex) -> notna (label_of ex p) = true) ->
  (forall df, to_csv df (disk w) = (Ok tt, Stored df)) ->
  exists w' reloaded,
    save_button to_csv w = (Ok tt, w') /\
    fst (load_existing_labels w') = Some reloaded /\
    columns reloaded = columns view /\
    rows reloaded =
      filter (fun p => negb (key_in view (columns ex) p)) (rows ex)
      ++ filter (fun r => notna (label_of view r)) (rows view) /\
    (forall p, In p (rows ex) -> key_in view (columns ex) p = false ->
       In p (rows reloaded)).
Proof.
  intros _ Hmem Hc Hnd Hwe Hwv Ht Hv Hl Hs Hlab Hio.
  unfold save_button. rewrite Hmem. simpl existing_labels.
  simpl filtered_comments.
  rewrite (all_labeled_same_columns ex view Hc Hnd Hwe Hwv Ht Hv Hl).
  unfold save_labeled_data. rewrite Hio. simpl.
  do 2 eexists. split; [reflexivity |].
  unfold load_existing_labels. simpl.
  split; [reflexivity |]. simpl. split; [reflexivity |].
  assert (Hkeep :
    filter (labeled (columns view))
      (filter (fun p => negb (text_in view (columns ex) p
                              && video_in view (columns ex) p)) (rows ex))
    = filter (fun p => negb (key_in view (columns ex) p)) (rows ex)).
  { rewrite filter_all.
    - apply filter_ext. intro p.
      now rewrite (single_video_key_in view (columns ex) p Hs).
    - intros p Hp. apply filter_In in Hp. destruct Hp as [Hp _].
      unfold labeled. rewrite <- Hc. now apply Hlab. }
  split.
  - rewrite Hkeep. reflexivity.
  - intros p Hp Hk. apply in_or_app. left. rewrite Hkeep.
    apply filter_In. split; [assumption |]. now rewrite Hk.
Qed.

(** ** The theorems at work on the example of the specification *)

Example spec_example_merge :
  merge_with_existing_labels Examples.spec_comments
    (Some Examples.spec_persisted) = Ok Examples.spec_merged.
Proof. reflexivity. Qed.

Example spec_example_save :
  all_labeled (Some Examples.spec_persisted) Examples.spec_view =
  Ok (mkDF ["videoId"; "text_original"; "label"]
        [[Examples.s "vB"; Examples.s "t3"; Examples.n 1];
         [Examples.s "vA"; Examples.s "t1"; Examples.n 2];
         [Examples.s "vA"; Examples.s "t2"; Examples.n 3]]).
Proof. reflexivity. Qed.

Lemma spec_view_single_video : single_video Examples.spec_view.
Proof.
  exists (Examples.s "vA"). intros r Hr. simpl in Hr.
  destruct Hr as [<- | [<- | []]]; reflexivity.
Defined.

Lemma filter_by_frame_subset_witness :
  exists r1 r2,
    filter_comments Examples.comments (SStr "vA") (Some Examples.videos)
      (Some 1%Z) = Ok r1 /\
    filter_comments Examples.comments (SStr "vA") None None = Ok r2 /\
    columns r1 = columns r2 /\
    (exists keep, rows r1 = filter keep (rows r2)) /\
    (forall r, In r (rows r1) -> In r (rows r2)).
Proof.
  apply (filter_by_frame_subset Examples.comments Examples.videos
           (SStr "vA") 1%Z); has_col.
Defined.

Lemma filter_absent_video_empty_witness :
  filter_comments Examples.comments (SStr "vZ") None None
    = Ok (mkDF (columns Examples.comments) []) /\
  (forall videos f,
     has_column "frame" videos -> has_column "videoId" videos ->
     filter_comments Examples.comments (SStr "vZ") (Some videos) (Some f)
       = Ok (mkDF (columns Examples.comments) [])).
Proof.
  apply (filter_absent_video_empty Examples.comments (SStr "vZ")).
  - has_col.
  - intros r Hr. simpl in Hr.
    destruct Hr as [<- | [<- | [<- | []]]]; discriminate.
Defined.

Lemma other_labels_removes_witness :
  exists others,
    other_labels Examples.spec_persisted Examples.spec_view = Ok others /\
    columns others = columns Examples.spec_persisted /\
    rows others =
      filter (fun p => negb (key_in Examples.spec_view
                               (columns Examples.spec_persisted) p))
        (rows Examples.spec_persisted) /\
    (forall p, In p (rows Examples.spec_persisted) ->
       (In p (rows others) <->
        key_in Examples.spec_view (columns Examples.spec_persisted) p
        = false)).
Proof.
  apply (other_labels_removes Examples.spec_persisted Examples.spec_view);
    try has_col.
  exact spec_view_single_video.
Defined.

Lemma merge_attaches_or_joins_witness :
  Examples.spec_merged
    = left_join_labels Examples.spec_comments Examples.spec_persisted /\
  columns Examples.spec_merged = columns Examples.spec_comments ++ ["label"] /\
  receives_persisted_labels Examples.spec_comments Examples.spec_persisted.
Proof.
  destruct (merge_attaches_or_joins Examples.spec_comments)
    as [_ [_ [_ [H R]]]].
  - has_col.
  - has_col.
  - unfold has_column. simpl. intuition discriminate.
  - well_formed.
  - destruct (H Examples.spec_persisted Examples.spec_merged)
      as [H1 [H2 _]].
    + reflexivity.
    + has_col.
    + reflexivity.
    + split; [exact H1 |]. split; [exact H2 |].
      apply R; [reflexivity | has_col].
Defined.

Lemma merge_idempotent_on_labels_witness :
  exists m2,
    merge_with_existing_labels Examples.spec_merged
      (Some Examples.spec_persisted) = Ok m2 /\
    (exists extra, columns m2 = columns Examples.spec_merged ++ extra) /\
    (forall r2, In r2 (rows m2) ->
       exists r t, In r (rows Examples.spec_merged) /\ r2 = r ++ t /\
                   label_of m2 r2 = label_of Examples.spec_merged r) /\
    (forall r, In r (rows Examples.spec_merged) ->
       exists t, In (r ++ t) (rows m2) /\
                 label_of m2 (r ++ t) = label_of Examples.spec_merged r).
Proof.
  apply (merge_idempotent_on_labels Examples.spec_comments
           (Some Examples.spec_persisted) Examples.spec_merged).
  - well_formed.
  - reflexivity.
Defined.

Lemma save_labeled_data_reports_witness :
  exists b w',
    save_labeled_data Examples.failing_to_csv Examples.spec_view
      Examples.spec_world = (Ok b, w') /\
    mem w' = mem Examples.spec_world /\
    (b = true <->
     exists u, fst (Examples.failing_to_csv Examples.spec_view
                      (disk Examples.spec_world)) = Ok u) /\
    (b = false <->
     exists e, fst (Examples.failing_to_csv Examples.spec_view
                      (disk Examples.spec_world)) = Raise e).
Proof.
  apply (save_labeled_data_reports Examples.failing_to_csv
           Examples.spec_view Examples.spec_world).
  intros e H. simpl in H. inversion H. reflexivity.
Defined.

Lemma save_reload_roundtrip_witness :
  exists w' reloaded,
    save_button Examples.lossless_to_csv Examples.spec_world = (Ok tt, w') /\
    fst (load_existing_labels w') = Some reloaded /\
    columns reloaded = columns Examples.spec_view /\
    rows reloaded =
      filter (fun p => negb (key_in Examples.spec_view
                               (columns Examples.spec_persisted) p))
        (rows Examples.spec_persisted)
      ++ filter (fun r => notna (label_of Examples.spec_view r))
           (rows Examples.spec_view) /\
    (forall p, In p (rows Examples.spec_persisted) ->
       key_in Examples.spec_view (columns Examples.spec_persisted) p = false ->
       In p (rows reloaded)).
Proof.
  apply (save_reload_roundtrip Examples.lossless_to_csv Examples.spec_world
           Examples.spec_persisted Examples.spec_view).
  - reflexivity.
  - reflexivity.
  - reflexivity.
  - no_dup.
  - well_formed.
  - well_formed.
  - has_col.
  - has_col.
  - has_col.
  - exact spec_view_single_video.
  - intros p Hp. simpl in Hp. destruct Hp as [<- | [<- | []]]; reflexivity.
  - intro df. reflexivity.
Defined.

(** ** Further properties of filter_comments *)

Section UniqueFacts.

Lemma In_unique (x : cell) (l : list cell) : In x (unique l) <-> In x l.
Proof.
  induction l as [|c l IH]; simpl; [tauto |].
  rewrite filter_In, IH. split.
  - intros [H | [H _]]; auto.
  - intros [H | H]; [now left |].
    destruct (cell_eqb c x) eqn:E.
    + left. now apply cell_eqb_eq.
    + right. split; [assumption | reflexivity].
Qed.

Lemma NoDup_filter {A} (p : A -> bool) (l : list A) :
  NoDup l -> NoDup (filter p l).
Proof.
  induction 1 as [|a l Ha Hl IH]; simpl; [constructor |].
  destruct (p a); [| assumption].
  constructor; [| assumption]. intro H. apply filter_In in H. tauto.
Qed.

Lemma NoDup_unique (l : list cell) : NoDup (unique l).
Proof.
  induction l as [|c l IH]; simpl; constructor.
  - intro H. apply filter_In in H. destruct H as [_ H].
    rewrite (proj2 (cell_eqb_eq c c) eq_refl) in H. discriminate.
  - now apply NoDup_filter.
Qed.

Lemma frame_has_video_spec (videos : DataFrame) (f : Z) (v : scalar) :
  existsb (cell_eqb (Some v)) (videos_of_frame videos f)
  = frame_has_video videos f v.
Proof.
  apply eq_true_iff_eq. unfold frame_has_video, videos_of_frame.
  rewrite !existsb_exists. split.
  - intros [x [Hx E]]. apply cell_eqb_eq in E. subst x.
    apply (proj1 (In_unique _ _)) in Hx. apply in_map_iff in Hx.
    destruct Hx as [r [Er Hr]]. apply filter_In in Hr.
    destruct Hr as [Hr Hf]. exists r. split; [assumption |].
    rewrite Hf. simpl. now apply elt_eqb_eq.
  - intros [r [Hr E]]. apply andb_true_iff in E. destruct E as [Ef Ev].
    apply elt_eqb_eq in Ev. exists (Some v). split.
    + apply (proj2 (In_unique _ _)). apply in_map_iff. exists r.
      split; [assumption |]. apply filter_In. auto.
    + now apply cell_eqb_eq.
Qed.

End UniqueFacts.

Lemma filter_frame_cases (c videos : DataFrame) (v : scalar) (f : Z) :
  has_column "videoId" c ->
  has_column "frame" videos -> has_column "videoId" videos ->
  filter_comments c v (Some videos) (Some f) =
    if frame_has_video videos f v
    then filter_comments c v None None
    else Ok (mkDF (columns c) []).
Proof.
  intros Hc Hf Hv.
  rewrite (filter_comments_frame c videos v f Hc Hf Hv).
  rewrite (filter_comments_video c v Hc).
  rewrite <- frame_has_video_spec.
  assert (E : forall r, In r (filter (matches_video v (columns c)) (rows c)) ->
    existsb (cell_eqb (cell_at (columns c) "videoId" r))
      (videos_of_frame videos f)
    = existsb (cell_eqb (Some v)) (videos_of_frame videos f)).
  { intros r Hr. apply filter_In in Hr. destruct Hr as [_ Hr].
    unfold matches_video in Hr. apply elt_eqb_eq in Hr. now rewrite Hr. }
  destruct (existsb (cell_eqb (Some v)) (videos_of_frame videos f)) eqn:B.
  - f_equal. f_equal. apply filter_all. intros r Hr. now rewrite E.
  - f_equal. f_equal. apply filter_nil_iff. intros r Hr. now rewrite E.
Qed.

(** X1. The frame filter is all or nothing: when the videos table pairs the
    selected video with the selected frame in some row, filtering by video
    and frame returns what filtering by the video alone returns; otherwise
    it returns no rows. *)
Theorem filter_frame_all_or_nothing (c videos : DataFrame) (v : scalar)
    (f : Z) :
  has_column "videoId" c ->
  has_column "frame" videos -> has_column "videoId" videos ->
  filter_comments c v (Some videos) (Some f) =
    if frame_has_video videos f v
    then filter_comments c v None None
    else Ok (mkDF (columns c) []).
Proof. exact (filter_frame_cases c videos v f). Qed.

(** X2. Filtering is idempotent: a frame returned by [filter_comments] is
    returned unchanged when it is filtered again with the same arguments. *)
Theorem filter_comments_idempotent (c : DataFrame) (v : scalar)
    (videos : option DataFrame) (frame : option Z) (view : DataFrame) :
  filter_comments c v videos frame = Ok view ->
  filter_comments view v videos frame = Ok view.
Proof.
  intro H.
  assert (Hc : has_column "videoId" c).
  { unfold filter_comments, getitem in H. apply col_index_In.
    destruct (col_index "videoId" (columns c)); [eauto | discriminate]. }
  assert (Hbase : forall w, filter_comments c v None None = Ok w ->
                            filter_comments w v None None = Ok w).
  { intros w Hw. rewrite (filter_comments_video c v Hc) in Hw.
    inversion Hw. rewrite filter_comments_video by exact Hc. simpl.
    f_equal. f_equal. apply filter_all. intros r Hr.
    apply filter_In in Hr. tauto. }
  destruct frame as [f|], videos as [vd|]; try (now apply Hbase).
  assert (Hcols : has_column "frame" vd /\ has_column "videoId" vd).
  { unfold filter_comments in H.
    rewrite (getitem_has _ _ Hc) in H. simpl in H.
    destruct (getitem vd "frame") as [fr|e] eqn:Ef; simpl in H;
      [| discriminate].
    assert (Hfr : has_column "frame" vd).
    { unfold getitem in Ef. apply col_index_In.
      destruct (col_index "frame" (columns vd)); [eauto | discriminate]. }
    split; [assumption |].
    destruct (getitem (loc_mask vd (series_eq fr (SInt f))) "videoId")
      as [ids|e] eqn:Ei; simpl in H; [| discriminate].
    unfold getitem in Ei. simpl in Ei. apply col_index_In.
    destruct (col_index "videoId" (columns vd)); [eauto | discriminate]. }
  destruct Hcols as [Hfr Hvd].
  rewrite (filter_frame_cases c vd v f Hc Hfr Hvd) in H.
  destruct (frame_has_video vd f v) eqn:B.
  - assert (Hv : has_column "videoId" view).
    { rewrite (filter_comments_video c v Hc) in H. inversion H. exact Hc. }
    rewrite (filter_frame_cases view vd v f Hv Hfr Hvd), B.
    now apply Hbase.
  - inversion H.
    rewrite (filter_frame_cases (mkDF (columns c) []) vd v f Hc Hfr Hvd), B.
    reflexivity.
Qed.

(** ** Further properties of merge_with_existing_labels *)

Section MergeMore.

Lemma has_column_dec (name : string) (df : DataFrame) :
  {has_column name df} + {~ has_column name df}.
Proof. apply in_dec. apply string_dec. Defined.

Lemma contains_false (df : DataFrame) (name : string) :
  ~ has_column name df -> contains df name = false.
Proof.
  intro H. destruct (contains df name) eqn:E; [| reflexivity].
  apply contains_In in E. contradiction.
Qed.

Lemma col_index_absent (name : string) (cols : list string) :
  ~ In name cols -> col_index name cols = None.
Proof.
  intro H. destruct (col_index name cols) eqn:E; [| reflexivity].
  exfalso. apply H. apply col_index_In. eauto.
Qed.

Lemma merge_without_text_left_falls_back (c ex : DataFrame) :
  ~ has_column "text_original" c ->
  merge_with_existing_labels c (Some ex) = Ok (setitem_None c "label").
Proof.
  intro H. unfold merge_with_existing_labels.
  destruct (empty ex); [reflexivity |].
  now rewrite (contains_false c _ H).
Qed.

Lemma merge_without_label_raises (c ex : DataFrame) :
  empty ex = false ->
  has_column "text_original" c -> has_column "text_original" ex ->
  has_column "videoId" ex -> ~ has_column "label" ex ->
  merge_with_existing_labels c (Some ex) = Raise (KeyError "label").
Proof.
  intros Hne Hct Het Hev Hl. unfold merge_with_existing_labels. rewrite Hne.
  rewrite (proj2 (contains_In c _) Hct), (proj2 (contains_In ex _) Het).
  simpl andb. cbv iota.
  apply col_index_In in Het, Hev.
  destruct Het as [i Hi], Hev as [j Hj].
  unfold getitems. simpl mapM. rewrite Hi, Hj.
  now rewrite (col_index_absent _ _ Hl).
Qed.

Lemma merge_left_without_videoId_raises (c ex : DataFrame) :
  empty ex = false ->
  has_column "text_original" c -> has_column "text_original" ex ->
  has_column "videoId" ex -> has_column "label" ex ->
  ~ has_column "videoId" c ->
  merge_with_existing_labels c (Some ex) = Raise (KeyError "videoId").
Proof.
  intros Hne Hct Het Hev Hel Hcv.
  unfold merge_with_existing_labels. rewrite Hne.
  rewrite (proj2 (contains_In c _) Hct), (proj2 (contains_In ex _) Het).
  simpl andb. cbv iota.
  apply col_index_In in Hct, Het, Hev, Hel.
  destruct Hct as [ct Hct], Het as [i Hi], Hev as [j Hj], Hel as [k Hk].
  unfold getitems. simpl mapM. rewrite Hi, Hj, Hk. simpl bind.
  unfold merge_left. simpl columns. simpl mapM. rewrite Hct.
  now rewrite (col_index_absent _ _ Hcv).
Qed.

Lemma flat_map_length_ge {A B} (f : A -> list B) (l : list A) :
  (forall a, In a l -> (1 <= List.length (f a))%nat) ->
  (List.length l <= List.length (flat_map f l))%nat.
Proof.
  induction l as [|a l IH]; simpl; intro H; [lia |].
  rewrite length_app.
  pose proof (H a (or_introl eq_refl)).
  assert (List.length l <= List.length (flat_map f l))%nat
    by (apply IH; intros b Hb; apply H; now right).
  lia.
Qed.

Lemma flat_map_length_eq {A B} (f : A -> list B) (l : list A) :
  (forall a, In a l -> List.length (f a) = 1%nat) ->
  List.length (flat_map f l) = List.length l.
Proof.
  induction l as [|a l IH]; simpl; intro H; [reflexivity |].
  rewrite length_app, (H a (or_introl eq_refl)), IH; [reflexivity |].
  intros b Hb. apply H. now right.
Qed.

Lemma filter_le1 {A B} (f : A -> B) (p : A -> bool) (k : B) (l : list A) :
  NoDup (map f l) ->
  (forall a, p a = true -> f a = k) ->
  (List.length (filter p l) <= 1)%nat.
Proof.
  intros Hnd Hk. induction l as [|a l IH]; simpl; [lia |].
  simpl in Hnd. inversion Hnd as [|? ? Ha Hl]; subst.
  destruct (p a) eqn:Pa; [| now apply IH].
  assert (E : filter p l = []).
  { apply filter_nil_iff. intros b Hb.
    destruct (p b) eqn:Pb; [| reflexivity].
    exfalso. apply Ha. rewrite (Hk a Pa), <- (Hk b Pb).
    now apply in_map. }
  rewrite E. simpl. lia.
Qed.

Lemma same_key_key_of (lcols rcols : list string) (l r : list cell) :
  same_key lcols rcols l r = true <-> key_of rcols r = key_of lcols l.
Proof.
  unfold same_key, key_of. rewrite andb_true_iff, !cell_eqb_eq.
  split; [intros [-> ->]; reflexivity | intro H; inversion H; auto].
Qed.

Lemma persisted_labels_le1 (ex : DataFrame) (lcols : list string)
    (l : list cell) :
  keys_distinct ex ->
  (List.length (persisted_labels ex lcols l) <= 1)%nat.
Proof.
  intro Hk. unfold persisted_labels. rewrite length_map.
  apply (filter_le1 (key_of (columns ex)) _ (key_of lcols l)); [exact Hk |].
  intros p Hp. now apply same_key_key_of.
Qed.

Lemma setitem_None_length (c : DataFrame) (name : string) :
  List.length (rows (setitem_None c name)) = List.length (rows c).
Proof.
  unfold setitem_None.
  destruct (col_index name (columns c)); simpl; apply length_map.
Qed.

End MergeMore.

(** X3. The merge never drops a current row: the result has at least as
    many rows as the table merged.  It has exactly as many when there is no
    persisted table or when no two persisted rows have the same
    (text_original, videoId) key; a current row is repeated only for a
    key that is on file several times. *)
Theorem merge_keeps_rows (c : DataFrame) (e : option DataFrame)
    (m : DataFrame) :
  merge_with_existing_labels c e = Ok m ->
  (List.length (rows c) <= List.length (rows m))%nat /\
  (match e with
   | Some ex => keys_distinct ex
   | None => True
   end -> List.length (rows m) = List.length (rows c)).
Proof.
  intro H. apply merge_cases in H.
  destruct H as [[Em _] | [ex [Ee [_ [_ [_ [_ [_ [_ Em]]]]]]]]]; subst m.
  - rewrite setitem_None_length. split; [lia | reflexivity].
  - subst e. unfold left_join_labels. simpl rows. split.
    + apply flat_map_length_ge. intros l _.
      destruct (persisted_labels ex (columns c) l); simpl; lia.
    + intro Hk. apply flat_map_length_eq. intros l _.
      pose proof (persisted_labels_le1 ex (columns c) l Hk) as Hle.
      destruct (persisted_labels ex (columns c) l) as [|x [|y ys]];
        simpl in *; try reflexivity; lia.
Qed.

(** X4. The merge raises a KeyError exactly when the persisted table has
    rows, both tables have a text_original column, and a column needed by
    the join is missing: videoId or label in the persisted table, or
    videoId in the current table. *)
Theorem merge_raises_iff (c : DataFrame) (e : option DataFrame) :
  (exists k, merge_with_existing_labels c e = Raise (KeyError k)) <->
  exists ex,
    e = Some ex /\ empty ex = false /\
    has_column "text_original" c /\ has_column "text_original" ex /\
    (~ has_column "videoId" ex \/ ~ has_column "label" ex \/
     ~ has_column "videoId" c).
Proof.
  split.
  - intros [k H]. destruct e as [ex|]; [| discriminate].
    exists ex. split; [reflexivity |].
    destruct (empty ex) eqn:He.
    { unfold merge_with_existing_labels in H. rewrite He in H.
      discriminate. }
    split; [reflexivity |].
    destruct (has_column_dec "text_original" c) as [Hct | Hct].
    2:{ rewrite (merge_without_text_left_falls_back c ex Hct) in H.
        discriminate. }
    destruct (has_column_dec "text_original" ex) as [Het | Het].
    2:{ rewrite (merge_without_text_falls_back c ex Het) in H.
        discriminate. }
    split; [assumption |]. split; [assumption |].
    destruct (has_column_dec "videoId" ex) as [Hev | Hev]; [| auto].
    destruct (has_column_dec "label" ex) as [Hel | Hel]; [| auto].
    destruct (has_column_dec "videoId" c) as [Hcv | Hcv]; [| auto].
    rewrite (merge_join c ex He Hct Hcv Het Hev Hel) in H. discriminate.
  - intros [ex [Ee [He [Hct [Het H]]]]]. subst e.
    destruct (has_column_dec "videoId" ex) as [Hev | Hev].
    2:{ exists "videoId". now apply merge_without_videoId_raises. }
    destruct (has_column_dec "label" ex) as [Hel | Hel].
    2:{ exists "label". now apply merge_without_label_raises. }
    destruct (has_column_dec "videoId" c) as [Hcv | Hcv].
    2:{ exists "videoId". now apply merge_left_without_videoId_raises. }
    exfalso. tauto.
Qed.

(** ** Further properties of the save block *)

Section SaveMore.

Lemma NoDup_app_intro {A} (l1 l2 : list A) :
  NoDup l1 -> NoDup l2 -> (forall a, In a l1 -> ~ In a l2) ->
  NoDup (l1 ++ l2).
Proof.
  induction 1 as [|a l Ha Hl IH]; simpl; intros H2 Hd; [assumption |].
  constructor.
  - intro H. apply in_app_or in H. destruct H as [H | H]; [contradiction |].
    apply (Hd a); auto.
  - apply IH; [assumption |]. intros b Hb. apply Hd. now right.
Qed.

Lemma NoDup_map_filter {K R} (key : R -> K) (keep : R -> bool)
    (xs : list R) :
  NoDup (map key xs) -> NoDup (map key (filter keep xs)).
Proof.
  intro Hnd. induction xs as [|x xs IH]; simpl in *; [constructor |].
  inversion Hnd as [|? ? Hx Hxs]; subst.
  destruct (keep x); simpl; [| now apply IH].
  constructor; [| now apply IH].
  intro Hin. apply Hx. apply in_map_iff in Hin.
  destruct Hin as [y [E Hy]]. apply filter_In in Hy.
  rewrite <- E. apply in_map. tauto.
Qed.

(** A persisted row that is set aside shares its key with no row of the
    view. *)
Lemma kept_row_key_not_in_view (view : DataFrame) (cols : list string)
    (p v : list cell) :
  negb (text_in view cols p && video_in view cols p) = true ->
  In v (rows view) ->
  key_of cols p <> key_of (columns view) v.
Proof.
  intros Hk Hv E. unfold key_of in E. inversion E as [[Et Ev]].
  apply negb_true_iff in Hk. apply andb_false_iff in Hk.
  destruct Hk as [Hk | Hk].
  - unfold text_in in Hk. rewrite <- not_true_iff_false in Hk. apply Hk.
    apply existsb_exists. exists v. split; [assumption |].
    now apply cell_eqb_eq.
  - unfold video_in in Hk. rewrite <- not_true_iff_false in Hk. apply Hk.
    apply existsb_exists. exists v. split; [assumption |].
    now apply cell_eqb_eq.
Qed.

(** Every row of the view is matched by the mask. *)
Lemma view_row_matched (view : DataFrame) (v : list cell) :
  In v (rows view) ->
  negb (text_in view (columns view) v && video_in view (columns view) v)
  = false.
Proof.
  intro Hv. apply negb_false_iff. apply andb_true_iff. split.
  - unfold text_in. apply existsb_exists. exists v.
    split; [assumption | now apply cell_eqb_eq].
  - unfold video_in. apply existsb_exists. exists v.
    split; [assumption | now apply cell_eqb_eq].
Qed.

Lemma wf_filter_app (cols : list string) (p q : list cell -> bool)
    (a b : list (list cell)) :
  wf (mkDF cols a) -> wf (mkDF cols b) ->
  wf (mkDF cols (filter p a ++ filter q b)).
Proof.
  unfold wf. simpl. rewrite !Forall_forall. intros Ha Hb r Hr.
  apply in_app_or in Hr.
  destruct Hr as [Hr | Hr]; apply filter_In in Hr; destruct Hr as [Hr _];
    auto.
Qed.

End SaveMore.

(** X5. Saving keeps keys distinct: when the persisted table and the view
    have the same duplicate-free columns, and in each of them no two rows
    have the same (text_original, videoId) key, no two rows of the frame
    written have the same key either. *)
Theorem save_keeps_keys_distinct (ex view saved : DataFrame) :
  columns ex = columns view -> NoDup (columns view) ->
  wf ex -> wf view ->
  has_column "text_original" view -> has_column "videoId" view ->
  has_column "label" view ->
  keys_distinct ex -> keys_distinct view ->
  all_labeled (Some ex) view = Ok saved ->
  keys_distinct saved.
Proof.
  intros Hc Hnd Hwe Hwv Ht Hv Hl Hke Hkv H.
  rewrite (all_labeled_same_columns ex view Hc Hnd Hwe Hwv Ht Hv Hl) in H.
  inversion H. subst saved. unfold keys_distinct in *. simpl.
  rewrite Hc in Hke. rewrite map_app. apply NoDup_app_intro.
  - now apply NoDup_map_filter, NoDup_map_filter.
  - now apply NoDup_map_filter.
  - intros k Hk1 Hk2. apply in_map_iff in Hk1, Hk2.
    destruct Hk1 as [p [Ep Hp]], Hk2 as [v [Ev Hv']].
    apply filter_In in Hp. destruct Hp as [Hp _].
    apply filter_In in Hp. destruct Hp as [_ Hp].
    apply filter_In in Hv'. destruct Hv' as [Hv' _].
    rewrite Hc in Hp.
    apply (kept_row_key_not_in_view view (columns view) p v Hp Hv').
    congruence.
Qed.

(** X6. Saving is idempotent: when the persisted table and the view have
    the same duplicate-free columns, saving the same view again over the
    frame just written writes that same frame. *)
Theorem save_twice_same_file (ex view saved : DataFrame) :
  columns ex = columns view -> NoDup (columns view) ->
  wf ex -> wf view ->
  has_column "text_original" view -> has_column "videoId" view ->
  has_column "label" view ->
  all_labeled (Some ex) view = Ok saved ->
  all_labeled (Some saved) view = Ok saved.
Proof.
  intros Hc Hnd Hwe Hwv Ht Hv Hl H.
  rewrite (all_labeled_same_columns ex view Hc Hnd Hwe Hwv Ht Hv Hl) in H.
  inversion H as [Es]. clear H.
  set (K := fun p => negb (text_in view (columns view) p
                           && video_in view (columns view) p)).
  set (L := labeled (columns view)).
  rewrite Hc. fold K. fold L.
  set (saved' := mkDF (columns view)
                   (filter L (filter K (rows ex)) ++ filter L (rows view))).
  assert (Hws : wf saved').
  { subst saved'. apply wf_filter_app.
    - unfold wf in *. simpl. rewrite Forall_forall in *. intros r Hr.
      try (apply filter_In in Hr; destruct Hr as [Hr _]).
      rewrite <- Hc. now apply Hwe.
    - exact Hwv. }
  rewrite (all_labeled_same_columns saved' view eq_refl Hnd Hws Hwv Ht Hv Hl).
  subst saved'. simpl columns. simpl rows. fold K. fold L.
  f_equal. f_equal. f_equal.
  rewrite filter_app.
  assert (E1 : filter K (filter L (rows view)) = []).
  { apply filter_nil_iff. intros r Hr. apply filter_In in Hr.
    destruct Hr as [Hr _]. now apply view_row_matched. }
  rewrite E1, app_nil_r.
  assert (HK : forall r, In r (filter L (filter K (rows ex))) -> K r = true).
  { intros r Hr. apply filter_In in Hr. destruct Hr as [Hr _].
    apply filter_In in Hr. tauto. }
  assert (HL : forall r, In r (filter L (filter K (rows ex))) -> L r = true).
  { intros r Hr. apply filter_In in Hr. tauto. }
  rewrite (filter_all K _ HK), (filter_all L _ HL). reflexivity.
Qed.

(** ** Resuming a session *)

Section Resume.

Lemma flat_map_singletons {A B} (f : A -> list B) (h : A -> B)
    (l : list A) :
  (forall a, In a l -> f a = [h a]) -> flat_map f l = map h l.
Proof.
  induction l as [|a l IH]; simpl; intro H; [reflexivity |].
  rewrite (H a (or_introl eq_refl)). simpl. f_equal.
  apply IH. intros b Hb. apply H. now right.
Qed.

(** With distinct keys, the rows that have the key of a given row are that
    row alone. *)
Lemma filter_unique_key {A B} (f : A -> B) (p : A -> bool) (a : A)
    (l : list A) :
  NoDup (map f l) -> In a l ->
  (forall b, In b l -> (p b = true <-> f b = f a)) ->
  filter p l = [a].
Proof.
  induction l as [|x l IH]; simpl; intros Hnd Ha Hp; [contradiction |].
  inversion Hnd as [|? ? Hx Hl]; subst.
  destruct (p x) eqn:Px.
  - pose proof (proj1 (Hp x (or_introl eq_refl)) Px) as Ex.
    assert (x = a).
    { destruct Ha as [Ha | Ha]; [assumption |].
      exfalso. apply Hx. rewrite Ex. now apply in_map. }
    subst x. f_equal. apply filter_nil_iff. intros b Hb.
    destruct (p b) eqn:Pb; [| reflexivity].
    exfalso. apply Hx.
    rewrite <- (proj1 (Hp b (or_intror Hb)) Pb). now apply in_map.
  - destruct Ha as [Ha | Ha].
    + subst x. rewrite (proj2 (Hp a (or_introl eq_refl)) eq_refl) in Px.
      discriminate.
    + apply IH; [assumption | assumption |].
      intros b Hb. apply Hp. now right.
Qed.

Variable c : DataFrame.
Variable lab : list cell -> cell.
Hypothesis Hwf : wf c.
Hypothesis Htext : has_column "text_original" c.
Hypothesis Hvid : has_column "videoId" c.
Hypothesis Hnolabel : ~ has_column "label" c.

Lemma labeled_view_key (l : list cell) (x : cell) :
  In l (rows c) ->
  key_of (columns (labeled_view c lab)) (l ++ [x]) = key_of (columns c) l.
Proof.
  intro Hl. unfold key_of. simpl columns.
  rewrite !cell_at_extended; auto using wf_row.
Qed.

Lemma labeled_view_label (l : list cell) (x : cell) :
  In l (rows c) -> label_of (labeled_view c lab) (l ++ [x]) = x.
Proof.
  intro Hl. unfold label_of. simpl columns.
  apply cell_at_appended; [exact Hnolabel | now apply wf_row].
Qed.

Lemma labeled_view_wf : wf (labeled_view c lab).
Proof.
  unfold wf. simpl. apply Forall_forall. intros r Hr.
  apply in_map_iff in Hr. destruct Hr as [l [E Hl]]. subst r.
  rewrite !length_app. simpl. now rewrite (wf_row c l Hwf Hl).
Qed.

Lemma labeled_view_all_labeled :
  (forall l, In l (rows c) -> lab l <> None) ->
  filter (labeled (columns (labeled_view c lab))) (rows (labeled_view c lab))
  = rows (labeled_view c lab).
Proof.
  intro Hlab. apply filter_all. intros r Hr. simpl in Hr.
  apply in_map_iff in Hr. destruct Hr as [l [E Hl]]. subst r.
  unfold labeled.
  change (cell_at (columns (labeled_view c lab)) "label" (l ++ [lab l]))
    with (label_of (labeled_view c lab) (l ++ [lab l])).
  rewrite (labeled_view_label l (lab l) Hl).
  specialize (Hlab l Hl). now destruct (lab l).
Qed.

(** Merging the comments with a file that holds the labeled view, after
    rows whose keys are not in the view, gives back the labeled view. *)
Lemma resume_from (others : list (list cell)) :
  keys_distinct c ->
  (forall p, In p others ->
     negb (text_in (labeled_view c lab) (columns (labeled_view c lab)) p
           && video_in (labeled_view c lab) (columns (labeled_view c lab)) p)
     = true) ->
  merge_with_existing_labels c
    (Some (mkDF (columns (labeled_view c lab))
             (others ++ rows (labeled_view c lab))))
  = Ok (labeled_view c lab).
Proof.
  intros Hkeys Hothers.
  set (view := labeled_view c lab).
  set (saved := mkDF (columns view) (others ++ rows view)).
  assert (Hjn : joined_name (columns c) = "label").
  { unfold joined_name. destruct (mem_string "label" (columns c)) eqn:E;
      [| reflexivity].
    apply mem_string_In in E. contradiction. }
  destruct (empty saved) eqn:He.
  - assert (Hr : rows c = []).
    { unfold empty in He. simpl in He.
      destruct (columns c ++ ["label"]) eqn:Ec.
      - destruct (columns c); discriminate.
      - destruct (others ++ map (fun l => l ++ [lab l]) (rows c)) eqn:Er;
          [| discriminate].
        apply app_eq_nil in Er. destruct Er as [_ Er].
        now apply map_eq_nil in Er. }
    unfold merge_with_existing_labels. rewrite He.
    rewrite (setitem_None_new c Hnolabel).
    unfold attach_null_label, view, labeled_view. now rewrite Hr.
  - rewrite (merge_join c saved He Htext Hvid).
    + f_equal. unfold left_join_labels, view, labeled_view. rewrite Hjn.
      f_equal. apply flat_map_singletons. intros l Hl.
      assert (E : persisted_labels saved (columns c) l = [lab l]).
      { unfold persisted_labels. simpl rows. rewrite filter_app.
        rewrite (filter_nil_iff _ others).
        2:{ intros p Hp.
            destruct (same_key (columns c) (columns saved) l p) eqn:K;
              [| reflexivity].
            exfalso. apply same_key_key_of in K.
            apply (kept_row_key_not_in_view view (columns view) p
                     (l ++ [lab l]) (Hothers p Hp)).
            - simpl. apply in_map_iff. eauto.
            - unfold view. rewrite (labeled_view_key l (lab l) Hl).
              exact K. }
        simpl app. rewrite filter_map_swap.
        rewrite (filter_unique_key (key_of (columns c)) _ l (rows c)
                   Hkeys Hl).
        - simpl. f_equal. apply (labeled_view_label l (lab l) Hl).
        - intros l' Hl'. rewrite same_key_key_of.
          simpl columns.
          change (columns c ++ ["label"])
            with (columns (labeled_view c lab)).
          now rewrite (labeled_view_key l' (lab l') Hl'). }
      rewrite E. reflexivity.
    + unfold has_column. simpl. apply in_or_app. now left.
    + unfold has_column. simpl. apply in_or_app. now left.
    + unfold has_column. simpl. apply in_or_app. right. now left.
Qed.

End Resume.

(** X7. Labels are recovered on resume.  Take the comments of a view, with
    distinct keys and no label column, and label every row; save that view,
    on top of a persisted table with the same columns or with no persisted
    table.  Merging the same comments with the frame written gives back
    the labeled view, row for row. *)
Theorem resume_recovers_labels (c : DataFrame) (lab : list cell -> cell)
    (e : option DataFrame) (saved : DataFrame) :
  wf c ->
  has_column "text_original" c -> has_column "videoId" c ->
  ~ has_column "label" c -> NoDup (columns c) ->
  keys_distinct c ->
  (forall l, In l (rows c) -> lab l <> None) ->
  match e with
  | Some ex => columns ex = columns c ++ ["label"] /\ wf ex
  | None => True
  end ->
  all_labeled e (labeled_view c lab) = Ok saved ->
  merge_with_existing_labels c (Some saved) = Ok (labeled_view c lab).
Proof.
  intros Hwf Ht Hv Hnl Hnd Hk Hlab He H.
  assert (Hvt : has_column "text_original" (labeled_view c lab))
    by (unfold has_column; simpl; apply in_or_app; now left).
  assert (Hvv : has_column "videoId" (labeled_view c lab))
    by (unfold has_column; simpl; apply in_or_app; now left).
  assert (Hvl : has_column "label" (labeled_view c lab))
    by (unfold has_column; simpl; apply in_or_app; right; now left).
  pose proof (labeled_view_wf c lab Hwf) as Hwv.
  pose proof (labeled_view_all_labeled c lab Hwf Hnl Hlab) as Hall.
  destruct e as [ex|].
  - destruct He as [Hc Hwe].
    assert (Hnd' : NoDup (columns (labeled_view c lab))).
    { simpl. apply NoDup_app_intro; [assumption | repeat constructor; auto |].
      intros a Ha [E | []]. subst a. contradiction. }
    rewrite (all_labeled_same_columns ex (labeled_view c lab) Hc Hnd' Hwe Hwv
               Hvt Hvv Hvl) in H.
    inversion H as [Es]. clear H. simpl in Hall. rewrite Hall.
    apply (resume_from c lab Hwf Ht Hv Hnl _ Hk).
    intros p Hp. apply filter_In in Hp. destruct Hp as [Hp _].
    apply filter_In in Hp. destruct Hp as [_ Hp].
    change (columns c ++ ["label"]) with (columns (labeled_view c lab)) in Hc.
    now rewrite Hc in Hp.
  - rewrite (all_labeled_first (labeled_view c lab) Hvl) in H.
    inversion H as [Es]. clear H. simpl in Hall. rewrite Hall.
    apply (resume_from c lab Hwf Ht Hv Hnl [] Hk).
    intros p [].
Qed.

(** X8. First save.  When no persisted table was loaded (no file, or a file
    that could not be read) and the write succeeds and stores the frame it
    is given, pressing save and loading the file yields exactly the rows of
    the view that have a label, in order; whatever the file held before is
    replaced. *)
Theorem first_save_roundtrip
    (to_csv : DataFrame -> file_state -> result unit * file_state)
    (w : world) (view : DataFrame) :
  mem w = mkSession None view ->
  has_column "label" view ->
  (forall df, to_csv df (disk w) = (Ok tt, Stored df)) ->
  exists w',
    save_button to_csv w = (Ok tt, w') /\
    fst (load_existing_labels w') =
      Some (mkDF (columns view)
              (filter (fun r => notna (label_of view r)) (rows view))) /\
    ui w' = ui w ++
      [StSuccess (List.length
                    (filter (fun r => notna (label_of view r)) (rows view)))].
Proof.
  intros Hmem Hl Hio. unfold save_button. rewrite Hmem. simpl.
  rewrite (all_labeled_first view Hl).
  unfold save_labeled_data. rewrite Hio. simpl.
  eexists. split; [reflexivity |]. split; reflexivity.
Qed.

(** X9. A failed write is reported, not raised.  When the frame to write
    is computed and the writer raises an Exception, the save button
    returns normally; the frames in memory are as before, the file is as
    the writer left it, and exactly two messages are added: the error of
    [save_labeled_data], then the error of the button.  No success message
    is shown. *)
Theorem save_button_failure_reported
    (to_csv : DataFrame -> file_state -> result unit * file_state)
    (w : world) (df : DataFrame) (e : pyexn) (d : file_state) :
  all_labeled (existing_labels (mem w)) (filtered_comments (mem w)) = Ok df ->
  to_csv df (disk w) = (Raise e, d) ->
  is_Exception e = true ->
  save_button to_csv w =
    (Ok tt,
     mkWorld (mem w) d
       (ui w ++ [StError "Error saving file";
                 StError "Failed to save labeled data"])).
Proof.
  intros Hdf H1 He. unfold save_button. rewrite Hdf.
  unfold save_labeled_data. rewrite H1, He. simpl.
  now rewrite <- app_assoc.
Qed.

(** ** The labeling loop *)

Section LabelingFacts.

Variable int_of_string : string -> option Z.
Variable picked : nat -> option Z.

Lemma update_nth_app {A} (f : A -> A) (pre : list A) (x : A)
    (post : list A) :
  update_nth (List.length pre) f (pre ++ x :: post) = pre ++ f x :: post.
Proof. induction pre as [|y pre IH]; simpl; [reflexivity | now rewrite IH]. Qed.

Lemma label_rows_relabel (cols : list string) (j : nat)
    (pre rs : list (list cell)) :
  col_index "label" cols = Some j ->
  label_rows int_of_string picked (mkDF cols (pre ++ rs)) cols
    (combine (seq (List.length pre) (List.length rs)) rs)
  = (rest <- relabel int_of_string picked j cols (List.length pre) rs ;;
     Ok (mkDF cols (pre ++ rest))).
Proof.
  intro Hj. revert pre. induction rs as [|r rs IH]; intro pre; simpl.
  - reflexivity.
  - unfold label_step.
    destruct (default_index int_of_string cols r) as [d|e]; simpl;
      [| reflexivity].
    unfold at_set. simpl columns. rewrite Hj. simpl rows.
    rewrite update_nth_app.
    replace (pre ++ set_nth j (Some (SInt (radio picked (List.length pre) d))) r
                 :: rs)
      with ((pre ++ [set_nth j (Some (SInt (radio picked (List.length pre) d))) r])
              ++ rs)
      by (now rewrite <- app_assoc).
    replace (S (List.length pre))
      with (List.length
              (pre ++ [set_nth j (Some (SInt (radio picked (List.length pre) d))) r]))
      by (rewrite length_app; simpl; lia).
    rewrite IH.
    rewrite length_app. simpl List.length.
    replace (List.length pre + 1)%nat with (S (List.length pre)) by lia.
    destruct (relabel int_of_string picked j cols (S (List.length pre)) rs)
      as [rest|e]; simpl; [| reflexivity].
    now rewrite <- app_assoc.
Qed.

(** The loop, on a frame with a label column, computes [relabel]. *)
Lemma label_loop_relabel (df : DataFrame) (j : nat) :
  col_index "label" (columns df) = Some j ->
  label_loop int_of_string picked df
  = (rs <- relabel int_of_string picked j (columns df) 0 (rows df) ;;
     Ok (mkDF (columns df) rs)).
Proof.
  intro Hj. unfold label_loop. destruct df as [cols rs]. simpl in *.
  exact (label_rows_relabel cols j [] rs Hj).
Qed.

Lemma list_index_Ok (x : Z) (l : list Z) (i : nat) :
  list_index x l = Ok i -> (i < List.length l)%nat /\ nth i l 0%Z = x.
Proof.
  revert i. induction l as [|y l IH]; simpl; intros i H; [discriminate |].
  destruct (Z.eqb x y) eqn:E.
  - inversion H. apply Z.eqb_eq in E. split; [lia | now subst].
  - destruct (list_index x l) as [k|e]; simpl in H; [| discriminate].
    inversion H. destruct (IH k eq_refl). split; [lia | assumption].
Qed.

Lemma list_index_In (x : Z) (l : list Z) :
  In x l -> exists i, list_index x l = Ok i.
Proof.
  induction l as [|y l IH]; simpl; [contradiction |].
  intro H. destruct (Z.eqb x y) eqn:E; [eauto |].
  destruct H as [H | H].
  - subst. rewrite Z.eqb_refl in E. discriminate.
  - destruct (IH H) as [i Hi]. rewrite Hi. simpl. eauto.
Qed.

Lemma list_index_not_In (x : Z) (l : list Z) :
  ~ In x l -> list_index x l = Raise (ValueError "is not in list").
Proof.
  induction l as [|y l IH]; simpl; intro H; [reflexivity |].
  destruct (Z.eqb x y) eqn:E.
  - apply Z.eqb_eq in E. exfalso. apply H. now left.
  - rewrite IH; [reflexivity |]. intro Hin. apply H. now right.
Qed.

Lemma nth_set_nth_same (j : nat) (x : cell) (r : list cell) :
  (j < List.length r)%nat -> nth j (set_nth j x r) None = x.
Proof.
  revert j. induction r as [|y r IH]; intros [|j] H; simpl in *;
    try lia; [reflexivity |].
  apply IH. lia.
Qed.

Lemma set_nth_same (j : nat) (x : cell) (r : list cell) :
  (j < List.length r)%nat -> nth j r None = x -> set_nth j x r = r.
Proof.
  revert j. induction r as [|y r IH]; intros [|j] H E; simpl in *;
    try lia.
  - now subst.
  - f_equal. apply IH; [lia | assumption].
Qed.

Lemma set_nth_length (j : nat) (x : cell) (r : list cell) :
  List.length (set_nth j x r) = List.length r.
Proof.
  revert j. induction r as [|y r IH]; intros [|j]; simpl; auto.
Qed.

(** The default index is a position of LABEL_OPTIONS. *)
Lemma default_index_lt (cols : list string) (r : list cell) (d : nat) :
  default_index int_of_string cols r = Ok d ->
  (d < List.length LABEL_OPTIONS)%nat.
Proof.
  unfold default_index.
  destruct (cell_at cols "label" r) as [x|].
  - destruct (py_int int_of_string x) as [z|e];
      cbv beta iota delta [bind]; [| discriminate].
    intro H. now apply list_index_Ok in H.
  - intro H. inversion H. simpl. lia.
Qed.

Lemma radio_in_options (pos d : nat) :
  (forall p z, picked p = Some z -> In z LABEL_OPTIONS) ->
  (d < List.length LABEL_OPTIONS)%nat ->
  In (radio picked pos d) LABEL_OPTIONS.
Proof.
  intros Hp Hd. unfold radio. destruct (picked pos) as [z|] eqn:E.
  - eapply Hp. eassumption.
  - now apply nth_In.
Qed.

Lemma relabel_Forall2 (j : nat) (cols : list string) (pos : nat)
    (rs rs' : list (list cell)) :
  relabel int_of_string picked j cols pos rs = Ok rs' ->
  Forall2 (fun r r' =>
             exists d p, default_index int_of_string cols r = Ok d /\
                         r' = set_nth j (Some (SInt (radio picked p d))) r)
    rs rs'.
Proof.
  revert pos rs'. induction rs as [|r rs IH]; simpl; intros pos rs' H.
  - inversion H. constructor.
  - destruct (default_index int_of_string cols r) as [d|e] eqn:Ed;
      simpl in H; [| discriminate].
    destruct (relabel int_of_string picked j cols (S pos) rs) as [rest|e]
      eqn:Er; simpl in H; [| discriminate].
    inversion H. constructor; [eauto | eapply IH; eassumption].
Qed.

Lemma cell_at_set_label (cols : list string) (j : nat) (x : cell)
    (r : list cell) :
  col_index "label" cols = Some j -> List.length r = List.length cols ->
  cell_at cols "label" (set_nth j x r) = x.
Proof.
  intros Hj Hl. unfold cell_at. rewrite Hj. unfold at_col.
  apply nth_set_nth_same. rewrite Hl. eapply col_index_lt. eassumption.
Qed.

Lemma cell_at_set_other (cols : list string) (j : nat) (name : string)
    (x : cell) (r : list cell) :
  col_index "label" cols = Some j -> name <> "label" ->
  cell_at cols name (set_nth j x r) = cell_at cols name r.
Proof.
  intros Hj Hn. unfold cell_at.
  destruct (col_index name cols) as [k|] eqn:Ek; [| reflexivity].
  unfold at_col. apply nth_set_nth_other. intro E. subst k.
  apply Hn. symmetry. eapply col_index_inj; eassumption.
Qed.

Lemma list_index_Raise (x : Z) (l : list Z) (e : pyexn) :
  list_index x l = Raise e -> e = ValueError "is not in list".
Proof.
  induction l as [|y l IH]; simpl; intro H.
  - now inversion H.
  - destruct (Z.eqb x y); [discriminate |].
    destruct (list_index x l) as [k|e0]; simpl in H; [discriminate |].
    inversion H. subst. now apply IH.
Qed.

Lemma default_index_Raise (cols : list string) (r : list cell) (e : pyexn) :
  default_index int_of_string cols r = Raise e -> exists msg, e = ValueError msg.
Proof.
  unfold default_index. destruct (cell_at cols "label" r) as [x|];
    [| discriminate].
  destruct x as [t|z]; unfold py_int.
  - destruct (int_of_string t) as [z|]; cbv beta iota delta [bind].
    + intro H. apply list_index_Raise in H. eauto.
    + intro H. inversion H. eauto.
  - cbv beta iota delta [bind]. intro H. apply list_index_Raise in H. eauto.
Qed.

Lemma relabel_Raise (j : nat) (cols : list string) (pos : nat)
    (rs : list (list cell)) (e : pyexn) :
  relabel int_of_string picked j cols pos rs = Raise e ->
  exists msg, e = ValueError msg.
Proof.
  revert pos. induction rs as [|r rs IH]; simpl; intros pos H;
    [discriminate |].
  destruct (default_index int_of_string cols r) as [d|e0] eqn:Ed;
    cbv beta iota delta [bind] in H.
  - destruct (relabel int_of_string picked j cols (S pos) rs) as [rest|e1]
      eqn:Er; [discriminate |].
    inversion H. subst. eapply IH. eassumption.
  - inversion H. subst. eapply default_index_Raise. eassumption.
Qed.

(** The default index of a row whose label is missing or one of the
    options, and the option found there. *)
Lemma default_index_valid (cols : list string) (r : list cell) :
  cell_at cols "label" r = None \/
  (exists z, cell_at cols "label" r = Some (SInt z) /\ In z LABEL_OPTIONS) ->
  exists d,
    default_index int_of_string cols r = Ok d /\
    Some (SInt (nth d LABEL_OPTIONS 0%Z)) =
      match cell_at cols "label" r with
      | Some x => Some x
      | None => Some (SInt 1)
      end.
Proof.
  unfold default_index. intros [H | [z [H Hz]]]; rewrite H.
  - exists 0%nat. split; reflexivity.
  - destruct (list_index_In z LABEL_OPTIONS Hz) as [d Hd].
    exists d. unfold py_int. cbv beta iota delta [bind].
    split; [assumption |].
    apply list_index_Ok in Hd. destruct Hd as [_ Hd]. now rewrite Hd.
Qed.

Lemma relabel_defaults (j : nat) (cols : list string) (pos : nat)
    (rs : list (list cell)) :
  col_index "label" cols = Some j ->
  Forall (fun r => List.length r = List.length cols) rs ->
  (forall r, In r rs ->
     cell_at cols "label" r = None \/
     (exists z, cell_at cols "label" r = Some (SInt z) /\
                In z LABEL_OPTIONS)) ->
  (exists rs', relabel int_of_string picked j cols pos rs = Ok rs') /\
  ((forall p, picked p = None) ->
   relabel int_of_string picked j cols pos rs =
   Ok (map (fun r => match cell_at cols "label" r with
                     | Some _ => r
                     | None => set_nth j (Some (SInt 1)) r
                     end) rs)).
Proof.
  intros Hj Hwf Hlab. revert pos.
  induction rs as [|r rs IH]; intro pos; simpl.
  - split; [eauto | reflexivity].
  - inversion Hwf as [|? ? Hlen Hwf']; subst.
    destruct (default_index_valid cols r (Hlab r (or_introl eq_refl)))
      as [d [Hd Hopt]].
    assert (Hlab' : forall r0, In r0 rs ->
      cell_at cols "label" r0 = None \/
      (exists z, cell_at cols "label" r0 = Some (SInt z) /\
                 In z LABEL_OPTIONS))
      by (intros r0 Hr0; apply Hlab; now right).
    destruct (IH Hwf' Hlab' (S pos)) as [[rs' Hrs'] Hdef].
    rewrite Hd. cbv beta iota delta [bind]. split.
    + rewrite Hrs'. eauto.
    + intro Hnone. rewrite (Hdef Hnone). f_equal. f_equal.
      unfold radio. rewrite Hnone. rewrite Hopt.
      destruct (cell_at cols "label" r) as [x|] eqn:El; [| reflexivity].
      apply set_nth_same.
      * rewrite Hlen. eapply col_index_lt. eassumption.
      * unfold cell_at in El. rewrite Hj in El. exact El.
Qed.

End LabelingFacts.

(** X10. After the labeling loop every row is labeled with one of the
    label options.  For a well-formed view with a label column and radio
    widgets that hold one of the options: if the loop returns, the frame
    has the same columns and as many rows, every row has label 1, 2 or 3,
    and the cells of every other column are as they were. *)
Theorem label_loop_labels_valid (int_of_string : string -> option Z)
    (picked : nat -> option Z) (df df' : DataFrame) :
  has_column "label" df -> wf df ->
  (forall p z, picked p = Some z -> In z LABEL_OPTIONS) ->
  label_loop int_of_string picked df = Ok df' ->
  columns df' = columns df /\
  List.length (rows df') = List.length (rows df) /\
  (forall r', In r' (rows df') ->
     exists z, label_of df' r' = Some (SInt z) /\ In z LABEL_OPTIONS) /\
  Forall2 (fun r r' =>
             forall name, name <> "label" ->
               cell_at (columns df) name r' = cell_at (columns df) name r)
    (rows df) (rows df').
Proof.
  intros Hl Hwf Hp H. apply col_index_In in Hl. destruct Hl as [j Hj].
  rewrite (label_loop_relabel int_of_string picked df j Hj) in H.
  destruct (relabel int_of_string picked j (columns df) 0 (rows df))
    as [rs|e] eqn:Er; simpl in H; [| discriminate].
  inversion H. subst df'. clear H. simpl.
  apply relabel_Forall2 in Er.
  split; [reflexivity |].
  split; [symmetry; eapply Forall2_length; eassumption |].
  unfold wf in Hwf. revert Hwf Er.
  generalize (rows df) as rows0. intros rows0 Hwf Er. split.
  - intros r' Hr'. induction Er as [|r r1 rs0 rs1 Hr Hrs IH].
    + contradiction.
    + inversion Hwf as [|? ? Hlen Hwf']; subst.
      destruct Hr' as [Hr' | Hr']; [| now apply IH].
      subst r'. destruct Hr as [d [p [Hd Er1]]]. subst r1.
      exists (radio picked p d). split.
      * unfold label_of. simpl columns.
        now apply cell_at_set_label.
      * apply radio_in_options; [assumption |].
        eapply default_index_lt. eassumption.
  - clear Hwf. induction Er as [|r r1 rs0 rs1 Hr Hrs IH]; constructor;
      [| assumption].
    intros name Hn. destruct Hr as [d [p [_ Er1]]]. subst r1.
    now apply cell_at_set_other.
Qed.

Section LoopThenSave.

Variable int_of_string : string -> option Z.
Variable picked : nat -> option Z.

(** What the loop returns is well-formed and has a label in every row. *)
Lemma label_loop_result (df df' : DataFrame) :
  has_column "label" df -> wf df ->
  label_loop int_of_string picked df = Ok df' ->
  columns df' = columns df /\ wf df' /\
  filter (labeled (columns df')) (rows df') = rows df'.
Proof.
  intros Hl Hwf H. apply col_index_In in Hl. destruct Hl as [j Hj].
  rewrite (label_loop_relabel int_of_string picked df j Hj) in H.
  destruct (relabel int_of_string picked j (columns df) 0 (rows df))
    as [rs|e] eqn:Er; simpl in H; [| discriminate].
  inversion H. subst df'. clear H. simpl.
  apply relabel_Forall2 in Er. unfold wf in *. simpl.
  revert Hwf Er. generalize (rows df) as rows0. intros rows0 Hwf Er.
  split; [reflexivity |].
  induction Er as [|r r1 rs0 rs1 Hr Hrs IH].
  - split; [constructor | reflexivity].
  - inversion Hwf as [|? ? Hlen Hwf']; subst.
    destruct (IH Hwf') as [IH1 IH2].
    destruct Hr as [d [p [_ Er1]]]. subst r1. split.
    + constructor; [| assumption]. now rewrite set_nth_length.
    + simpl. unfold labeled at 1.
      rewrite (cell_at_set_label (columns df) j _ r Hj Hlen). simpl.
      now rewrite IH2.
Qed.

End LoopThenSave.

(** X13. Every comment shown is written.  After the labeling loop has run
    over a well-formed view, pressing save writes a frame that ends with
    all the rows of the view as labeled by the loop, after the persisted
    rows that are kept; this holds with no persisted table, and with one
    that has the columns of the view. *)
Theorem labeled_view_saved_whole (int_of_string : string -> option Z)
    (picked : nat -> option Z) (view view' : DataFrame)
    (e : option DataFrame) :
  has_column "label" view -> wf view ->
  label_loop int_of_string picked view = Ok view' ->
  match e with
  | Some ex =>
      columns ex = columns view /\ NoDup (columns view) /\ wf ex /\
      has_column "text_original" view /\ has_column "videoId" view
  | None => True
  end ->
  exists saved others,
    all_labeled e view' = Ok saved /\
    columns saved = columns view /\
    rows saved = others ++ rows view'.
Proof.
  intros Hl Hwf H He.
  destruct (label_loop_result int_of_string picked view view' Hl Hwf H)
    as [Hc [Hwf' Hall]].
  assert (Hl' : has_column "label" view')
    by (unfold has_column; now rewrite Hc).
  destruct e as [ex|].
  - destruct He as [Hce [Hnd [Hwe [Ht Hv]]]].
    rewrite <- Hc in Hce, Hnd.
    assert (Ht' : has_column "text_original" view')
      by (unfold has_column; now rewrite Hc).
    assert (Hv' : has_column "videoId" view')
      by (unfold has_column; now rewrite Hc).
    rewrite (all_labeled_same_columns ex view' Hce Hnd Hwe Hwf' Ht' Hv' Hl').
    do 2 eexists. split; [reflexivity |]. simpl.
    split; [assumption |]. now rewrite Hall.
  - rewrite (all_labeled_first view' Hl').
    exists (mkDF (columns view') (filter (labeled (columns view')) (rows view'))).
    exists []. split; [reflexivity |]. simpl.
    split; [assumption | now rewrite Hall].
Qed.

(** X11. The labeling loop with widgets left untouched.  For a well-formed
    view whose labels are missing or one of the options, the loop returns,
    whatever the operator chose; when no widget was touched, the rows that
    had a label are unchanged and every row without a label now carries
    the first option, 1. *)
Theorem label_loop_defaults (int_of_string : string -> option Z)
    (picked : nat -> option Z) (df : DataFrame) (j : nat) :
  col_index "label" (columns df) = Some j -> wf df ->
  (forall r, In r (rows df) ->
     label_of df r = None \/
     (exists z, label_of df r = Some (SInt z) /\ In z LABEL_OPTIONS)) ->
  (exists df', label_loop int_of_string picked df = Ok df') /\
  ((forall p, picked p = None) ->
   label_loop int_of_string picked df =
   Ok (mkDF (columns df)
         (map (fun r => match label_of df r with
                        | Some _ => r
                        | None => set_nth j (Some (SInt 1)) r
                        end) (rows df)))).
Proof.
  intros Hj Hwf Hlab.
  rewrite (label_loop_relabel int_of_string picked df j Hj).
  destruct (relabel_defaults int_of_string picked j (columns df) 0 (rows df)
              Hj Hwf Hlab) as [[rs' Hrs'] Hdef].
  split.
  - rewrite Hrs'. simpl. eauto.
  - intro Hnone. now rewrite (Hdef Hnone).
Qed.

(** X12. A label on file that is not one of the options stops the page:
    if some row of the view has an integer label other than 1, 2 and 3,
    the labeling loop raises ValueError, whatever the operator chose. *)
Theorem label_loop_bad_label_raises (int_of_string : string -> option Z)
    (picked : nat -> option Z) (df : DataFrame) (r : list cell) (z : Z) :
  has_column "label" df ->
  In r (rows df) -> label_of df r = Some (SInt z) ->
  ~ In z LABEL_OPTIONS ->
  exists msg, label_loop int_of_string picked df = Raise (ValueError msg).
Proof.
  intros Hl Hr Hz Hbad. apply col_index_In in Hl. destruct Hl as [j Hj].
  rewrite (label_loop_relabel int_of_string picked df j Hj).
  destruct (relabel int_of_string picked j (columns df) 0 (rows df))
    as [rs|e] eqn:Er.
  - exfalso. apply relabel_Forall2 in Er.
    assert (Hd : exists d, default_index int_of_string (columns df) r = Ok d).
    { clear Hz Hbad. induction Er as [|r0 r1 rs0 rs1 H0 Hrs IH].
      - contradiction.
      - destruct Hr as [Hr | Hr]; [| now apply IH].
        subst r0. destruct H0 as [d [p [Hd _]]]. eauto. }
    destruct Hd as [d Hd]. unfold default_index in Hd.
    unfold label_of in Hz. rewrite Hz in Hd. unfold py_int in Hd.
    cbv beta iota delta [bind] in Hd.
    rewrite (list_index_not_In z LABEL_OPTIONS Hbad) in Hd. discriminate.
  - apply relabel_Raise in Er. destruct Er as [msg Er]. subst e.
    simpl. eauto.
Qed.

(** ** Validation, selection lists and the status filter *)

Section MainFacts.

Lemma count_true_map {A} (p : A -> bool) (l : list A) :
  count_true (map p l) = List.length (filter p l).
Proof.
  unfold count_true. induction l as [|a l IH]; simpl; [reflexivity |].
  destruct (p a); simpl; now rewrite IH.
Qed.

Lemma filter_partition_perm {A} (p : A -> bool) (l : list A) :
  Permutation (filter p l ++ filter (fun a => negb (p a)) l) l.
Proof.
  induction l as [|a l IH]; simpl; [constructor |].
  destruct (p a); simpl.
  - now constructor.
  - apply Permutation_sym, Permutation_cons_app, Permutation_sym, IH.
Qed.

Lemma filter_neg_filter {A} (p : A -> bool) (l : list A) :
  filter (fun a => negb (p a)) (filter p l) = [].
Proof.
  apply filter_nil_iff. intros a Ha. apply filter_In in Ha.
  destruct Ha as [_ Ha]. now rewrite Ha.
Qed.

Lemma filter_filter_neg {A} (p : A -> bool) (l : list A) :
  filter p (filter (fun a => negb (p a)) l) = [].
Proof.
  apply filter_nil_iff. intros a Ha. apply filter_In in Ha.
  destruct Ha as [_ Ha]. now apply negb_true_iff in Ha.
Qed.

Lemma filter_idem {A} (p : A -> bool) (l : list A) :
  filter p (filter p l) = filter p l.
Proof.
  apply filter_all. intros a Ha. apply filter_In in Ha. tauto.
Qed.

(** The counts of a frame with a label column. *)
Lemma statistics_counts (df : DataFrame) :
  has_column "label" df ->
  statistics df =
  Ok (List.length (rows df),
      List.length (filter (labeled (columns df)) (rows df)),
      List.length (filter (fun r => negb (labeled (columns df) r)) (rows df))).
Proof.
  intro Hl. unfold statistics. rewrite (getitem_has _ _ Hl).
  cbv beta iota delta [bind]. unfold series_notna, series_isna.
  rewrite !map_map, !count_true_map. reflexivity.
Qed.

Lemma apply_label_filter_rows (df : DataFrame) :
  has_column "label" df ->
  apply_label_filter LabeledOnly df =
    Ok (mkDF (columns df) (filter (labeled (columns df)) (rows df))) /\
  apply_label_filter UnlabeledOnly df =
    Ok (mkDF (columns df)
          (filter (fun r => negb (labeled (columns df) r)) (rows df))).
Proof.
  intro Hl. unfold apply_label_filter. rewrite (getitem_has _ _ Hl).
  cbv beta iota delta [bind]. unfold series_notna, series_isna.
  rewrite !map_map. split; f_equal.
  - exact (loc_mask_rows df (labeled (columns df))).
  - exact (loc_mask_rows df (fun r => negb (labeled (columns df) r))).
Qed.

End MainFacts.

(** X14. The status filter splits the view.  For a view with a label
    column, the rows shown under "Labeled Only" together with the rows
    shown under "Unlabeled Only" are the rows of the view, each once.  The
    counts displayed agree with this: for the whole view the labeled and
    unlabeled counts are the sizes of the two parts and add up to the
    total; the labeled part shows no unlabeled row and the unlabeled part
    no labeled row. *)
Theorem status_filter_partition (df : DataFrame) :
  has_column "label" df ->
  exists shown_l shown_u,
    apply_label_filter LabeledOnly df = Ok shown_l /\
    apply_label_filter UnlabeledOnly df = Ok shown_u /\
    Permutation (rows shown_l ++ rows shown_u) (rows df) /\
    List.length (rows df)
      = (List.length (rows shown_l) + List.length (rows shown_u))%nat /\
    statistics df = Ok (List.length (rows df),
                        List.length (rows shown_l),
                        List.length (rows shown_u)) /\
    statistics shown_l = Ok (List.length (rows shown_l),
                             List.length (rows shown_l), 0%nat) /\
    statistics shown_u = Ok (List.length (rows shown_u), 0%nat,
                             List.length (rows shown_u)).
Proof.
  intro Hl. destruct (apply_label_filter_rows df Hl) as [El Eu].
  do 2 eexists. split; [exact El |]. split; [exact Eu |]. simpl rows.
  pose proof (filter_partition_perm (labeled (columns df)) (rows df)) as Hp.
  split; [exact Hp |]. split.
  { apply Permutation_length in Hp. rewrite length_app in Hp. now symmetry. }
  split; [now apply statistics_counts |]. split.
  - rewrite statistics_counts by exact Hl. simpl.
    now rewrite filter_idem, filter_neg_filter.
  - rewrite statistics_counts by exact Hl. simpl.
    rewrite filter_filter_neg.
    now rewrite (filter_idem (fun r => negb (labeled (columns df) r))).
Qed.

(** X15. Validation makes the filter total.  When none of the three column
    checks of main stops it, [filter_comments] returns for every selected
    video, with or without the frame filter, and the frame it returns has
    the columns of the comments table, text_original among them. *)
Theorem validated_filter_returns (comments videos : DataFrame) (v : scalar)
    (use_frame_filter : bool) (frame : option Z) :
  validate_columns comments videos = None ->
  exists view,
    filter_comments comments v
      (if use_frame_filter then Some videos else None) frame = Ok view /\
    columns view = columns comments /\
    has_column "text_original" view.
Proof.
  unfold validate_columns. intro H.
  destruct (contains comments "text_original") eqn:Ht; [| discriminate].
  destruct (contains comments "videoId") eqn:Hv; [| discriminate].
  destruct (contains videos "videoId") eqn:Hvv; [| discriminate].
  destruct (contains videos "frame") eqn:Hvf; [| discriminate].
  apply contains_In in Ht, Hv, Hvv, Hvf.
  assert (Hbase : filter_comments comments v None None =
    Ok (mkDF (columns comments)
          (filter (matches_video v (columns comments)) (rows comments))))
    by now apply filter_comments_video.
  destruct use_frame_filter, frame as [f|].
  - rewrite (filter_comments_frame comments videos v f Hv Hvf Hvv).
    eexists. split; [reflexivity |]. split; [reflexivity | exact Ht].
  - change (filter_comments comments v (Some videos) None)
      with (filter_comments comments v None None).
    rewrite Hbase. eexists. split; [reflexivity |].
    split; [reflexivity | exact Ht].
  - change (filter_comments comments v None (Some f))
      with (filter_comments comments v None None).
    rewrite Hbase. eexists. split; [reflexivity |].
    split; [reflexivity | exact Ht].
  - rewrite Hbase. eexists. split; [reflexivity |].
    split; [reflexivity | exact Ht].
Qed.

Section SelectionFacts.

Variable py_sorted : list cell -> result (list cell).
Hypothesis py_sorted_perm :
  forall l l', py_sorted l = Ok l' -> Permutation l l'.

(** The distinct values of a column, in the order [sorted] gives them. *)
Lemma sorted_unique_column (df : DataFrame) (name : string)
    (ids : list cell) :
  has_column name df ->
  (vals <- getitem df name ;; py_sorted (unique vals)) = Ok ids ->
  NoDup ids /\
  (forall x, In x ids <->
     exists r, In r (rows df) /\ cell_at (columns df) name r = x) /\
  (ids = [] -> rows df = []).
Proof.
  intros Hn H. rewrite (getitem_has _ _ Hn) in H.
  cbv beta iota delta [bind] in H. apply py_sorted_perm in H.
  split; [| split].
  - eapply Permutation_NoDup; [exact H | apply NoDup_unique].
  - intro x. split.
    + intro Hx. apply (Permutation_in _ (Permutation_sym H)) in Hx.
      apply (proj1 (In_unique _ _)) in Hx. apply in_map_iff in Hx.
      destruct Hx as [r [E Hr]]. eauto.
    + intros [r [Hr E]]. apply (Permutation_in _ H).
      apply (proj2 (In_unique _ _)). apply in_map_iff. eauto.
  - intro E. subst ids. apply Permutation_sym, Permutation_nil in H.
    destruct (rows df) as [|r rs]; [reflexivity |].
    simpl in H. discriminate.
Qed.

End SelectionFacts.

(** X16. The selection lists.  Provided [sorted] returns a permutation of
    its argument: when [get_video_ids] returns, the list it offers has no
    duplicates and holds exactly the videoId values that occur in the
    videos table, and it is empty only if the table has no videoId column
    or no rows; the same holds of [get_frames] and the frame column. *)
Theorem selection_lists_exact (py_sorted : list cell -> result (list cell))
    (videos : DataFrame) :
  (forall l l', py_sorted l = Ok l' -> Permutation l l') ->
  (forall ids, get_video_ids py_sorted videos = Ok ids ->
     NoDup ids /\
     (forall x, In x ids <->
        has_column "videoId" videos /\
        exists r, In r (rows videos) /\
                  cell_at (columns videos) "videoId" r = x) /\
     (ids = [] -> ~ has_column "videoId" videos \/ rows videos = [])) /\
  (forall frames, get_frames py_sorted videos = Ok frames ->
     NoDup frames /\
     (forall x, In x frames <->
        has_column "frame" videos /\
        exists r, In r (rows videos) /\
                  cell_at (columns videos) "frame" r = x) /\
     (frames = [] -> ~ has_column "frame" videos \/ rows videos = [])).
Proof.
  intro Hperm.
  assert (G : forall name l,
    (if contains videos name
     then vals <- getitem videos name ;; py_sorted (unique vals)
     else Ok []) = Ok l ->
    NoDup l /\
    (forall x, In x l <->
       has_column name videos /\
       exists r, In r (rows videos) /\ cell_at (columns videos) name r = x) /\
    (l = [] -> ~ has_column name videos \/ rows videos = [])).
  { intros name l H. destruct (contains videos name) eqn:Ec.
    - apply contains_In in Ec.
      destruct (sorted_unique_column py_sorted Hperm videos name l Ec H)
        as [Hnd [Hin Hnil]].
      split; [assumption |]. split.
      + intro x. rewrite Hin. tauto.
      + intro E. right. now apply Hnil.
    - inversion H. split; [constructor |]. split.
      + intro x. split; [contradiction |]. intros [Hc _].
        apply contains_In in Hc. congruence.
      + intros _. left. intro Hc. apply contains_In in Hc. congruence. }
  split; intros l H; now apply G.
Qed.

(** ** Duplicate comments and tables with a label column of their own *)

Section Duplicates.

Lemma filter_two {A} (p : A -> bool) (pre mid post : list A) (a b : A) :
  p a = true -> p b = true ->
  (2 <= List.length (filter p (pre ++ a :: mid ++ b :: post)))%nat.
Proof.
  intros Ha Hb. rewrite filter_app, length_app. simpl. rewrite Ha.
  simpl. rewrite filter_app, length_app. simpl. rewrite Hb. simpl. lia.
Qed.

Lemma chunk_length (ex : DataFrame) (cols : list string) (l : list cell) :
  (List.length (persisted_labels ex cols l) <=
   List.length (match persisted_labels ex cols l with
                | [] => [l ++ [None]]
                | labs => map (fun x => l ++ [x]) labs
                end))%nat /\
  (1 <= List.length (match persisted_labels ex cols l with
                     | [] => [l ++ [None]]
                     | labs => map (fun x => l ++ [x]) labs
                     end))%nat.
Proof.
  destruct (persisted_labels ex cols l) as [|x xs]; simpl.
  - lia.
  - rewrite length_map. lia.
Qed.

End Duplicates.

(** X17. Duplicate comments multiply on resume.  Take comments without a
    label column in which two rows have the same (text_original, videoId)
    key, label every row and save.  Merging the same comments with the
    frame written returns a view with at least two rows more than there
    are comments: each of the two rows comes back once per saved row with
    its key. *)
Theorem resume_duplicates_grow (c : DataFrame) (lab : list cell -> cell)
    (e : option DataFrame) (saved : DataFrame)
    (pre mid post : list (list cell)) (l1 l2 : list cell) :
  wf c ->
  has_column "text_original" c -> has_column "videoId" c ->
  ~ has_column "label" c -> NoDup (columns c) ->
  rows c = pre ++ l1 :: mid ++ l2 :: post ->
  key_of (columns c) l1 = key_of (columns c) l2 ->
  (forall l, In l (rows c) -> lab l <> None) ->
  match e with
  | Some ex => columns ex = columns c ++ ["label"] /\ wf ex
  | None => True
  end ->
  all_labeled e (labeled_view c lab) = Ok saved ->
  exists m,
    merge_with_existing_labels c (Some saved) = Ok m /\
    (List.length (rows c) + 2 <= List.length (rows m))%nat.
Proof.
  intros Hwf Ht Hv Hnl Hnd Hrows Hkey Hlab He H.
  set (view := labeled_view c lab).
  assert (Hvt : has_column "text_original" view)
    by (unfold has_column; simpl; apply in_or_app; now left).
  assert (Hvv : has_column "videoId" view)
    by (unfold has_column; simpl; apply in_or_app; now left).
  assert (Hvl : has_column "label" view)
    by (unfold has_column; simpl; apply in_or_app; right; now left).
  pose proof (labeled_view_wf c lab Hwf) as Hwv.
  pose proof (labeled_view_all_labeled c lab Hwf Hnl Hlab) as Hall.
  assert (Hs : exists others,
             saved = mkDF (columns view) (others ++ rows view)).
  { destruct e as [ex|].
    - destruct He as [Hc Hwe].
      assert (Hnd' : NoDup (columns view)).
      { simpl. apply NoDup_app_intro;
          [assumption | repeat constructor; auto |].
        intros a Ha [E | []]. subst a. contradiction. }
      unfold view in *.
      rewrite (all_labeled_same_columns ex (labeled_view c lab) Hc Hnd'
                 Hwe Hwv Hvt Hvv Hvl) in H.
      inversion H as [Es]. simpl in Hall. rewrite Hall. eauto.
    - unfold view in *.
      rewrite (all_labeled_first (labeled_view c lab) Hvl) in H.
      inversion H as [Es]. simpl in Hall. rewrite Hall. exists []. reflexivity. }
  destruct Hs as [others Es]. subst saved.
  set (saved := mkDF (columns view) (others ++ rows view)).
  assert (Hl1 : In l1 (rows c))
    by (rewrite Hrows; apply in_or_app; right; now left).
  assert (Hl2 : In l2 (rows c)).
  { rewrite Hrows. apply in_or_app. right. right.
    apply in_or_app. right. now left. }
  assert (Hne : empty saved = false).
  { unfold empty. simpl.
    destruct (columns c ++ ["label"]) eqn:Ec;
      [destruct (columns c); discriminate |].
    rewrite Hrows. rewrite map_app. simpl.
    destruct (others ++ map (fun l => l ++ [lab l]) pre ++
              (l1 ++ [lab l1]) :: map (fun l => l ++ [lab l])
                                    (mid ++ l2 :: post)) eqn:Er;
      [| reflexivity].
    apply app_eq_nil in Er. destruct Er as [_ Er].
    apply app_eq_nil in Er. destruct Er as [_ Er]. discriminate. }
  exists (left_join_labels c saved). split.
  - apply merge_join; try assumption.
  - assert (Hmatch : forall l, In l (rows c) ->
      key_of (columns c) l = key_of (columns c) l1 ->
      (2 <= List.length (persisted_labels saved (columns c) l))%nat).
    { intros l Hl Hk. unfold persisted_labels. rewrite length_map.
      simpl rows. rewrite filter_app, length_app.
      rewrite filter_map_swap, length_map. rewrite Hrows.
      assert (Hp : forall l', In l' (rows c) ->
        key_of (columns c) l' = key_of (columns c) l1 ->
        same_key (columns c) (columns saved) l (l' ++ [lab l']) = true).
      { intros l' Hl' Hk'. apply same_key_key_of. simpl columns.
        change (columns c ++ ["label"]) with (columns (labeled_view c lab)).
        rewrite (labeled_view_key c lab Hwf Ht Hv l' (lab l') Hl').
        congruence. }
      pose proof (filter_two
        (fun a => same_key (columns c) (columns saved) l (a ++ [lab a]))
        pre mid post l1 l2 (Hp l1 Hl1 eq_refl) (Hp l2 Hl2 (eq_sym Hkey))).
      lia. }
    unfold left_join_labels. cbn [rows].
    set (chunk := fun l : list cell =>
           match persisted_labels saved (columns c) l with
           | [] => [l ++ [None]]
           | labs => map (fun x => l ++ [x]) labs
           end).
    assert (Hge : forall ls, (List.length ls
                              <= List.length (flat_map chunk ls))%nat).
    { intro ls. apply flat_map_length_ge. intros a _.
      exact (proj2 (chunk_length saved (columns c) a)). }
    assert (H1 : (List.length (persisted_labels saved (columns c) l1)
                  <= List.length (chunk l1))%nat)
      by exact (proj1 (chunk_length saved (columns c) l1)).
    assert (H2 : (List.length (persisted_labels saved (columns c) l2)
                  <= List.length (chunk l2))%nat)
      by exact (proj1 (chunk_length saved (columns c) l2)).
    pose proof (Hmatch l1 Hl1 eq_refl) as M1.
    pose proof (Hmatch l2 Hl2 (eq_sym Hkey)) as M2.
    pose proof (Hge pre) as Gpre.
    pose proof (Hge mid) as Gmid.
    pose proof (Hge post) as Gpost.
    rewrite Hrows. rewrite flat_map_app. cbn [flat_map].
    rewrite flat_map_app. cbn [flat_map].
    rewrite !length_app. cbn [List.length].
    rewrite !length_app. cbn [List.length].
    lia.
Qed.

(** X18. A comments table with a label column of its own.  Without
    persisted labels the merge erases that column: every label becomes
    null, the other cells stay.  With a persisted table that has rows and
    a text_original column, a merge that returns appends one column,
    label_existing, and leaves the table's own labels in place: each row
    of the result is a current row followed by one cell, which is the
    label of a persisted row sharing its key, or null when there is none;
    and every current row appears so with the label of each persisted row
    sharing its key. *)
Theorem merge_own_label_column (c : DataFrame) :
  wf c -> has_column "label" c ->
  (exists m,
     merge_with_existing_labels c None = Ok m /\
     columns m = columns c /\
     (forall r, In r (rows m) -> label_of m r = None) /\
     Forall2 (fun l r => forall name, name <> "label" ->
                cell_at (columns c) name r = cell_at (columns c) name l)
       (rows c) (rows m)) /\
  (forall ex m,
     empty ex = false ->
     has_column "text_original" c -> has_column "text_original" ex ->
     merge_with_existing_labels c (Some ex) = Ok m ->
     columns m = columns c ++ ["label_existing"] /\
     (forall r, In r (rows m) ->
        exists l x,
          In l (rows c) /\ r = l ++ [x] /\
          label_of m r = label_of c l /\
          ((exists p, In p (rows ex) /\
              same_key (columns c) (columns ex) l p = true /\
              x = label_of ex p) \/
           ((forall p, In p (rows ex) ->
               same_key (columns c) (columns ex) l p = false) /\
            x = None))) /\
     (forall l, In l (rows c) ->
        (forall p, In p (rows ex) ->
           same_key (columns c) (columns ex) l p = true ->
           In (l ++ [label_of ex p]) (rows m)) /\
        ((forall p, In p (rows ex) ->
            same_key (columns c) (columns ex) l p = false) ->
         In (l ++ [None]) (rows m)))).
Proof.
  intros Hwf Hl. split.
  - pose proof Hl as Hl'. apply col_index_In in Hl'. destruct Hl' as [j Hj].
    exists (setitem_None c "label"). split; [reflexivity |].
    unfold setitem_None. rewrite Hj. simpl. split; [reflexivity |]. split.
    + intros r Hr. apply in_map_iff in Hr. destruct Hr as [l [E Hin]].
      subst r. unfold label_of. simpl columns.
      apply cell_at_set_label; [assumption | now apply wf_row].
    + clear Hwf. induction (rows c) as [|l ls IH]; simpl; constructor;
        [| assumption].
      intros name Hn. now apply cell_at_set_other.
  - intros ex m Hne Hct Het Hm.
    destruct (merge_join_inv c ex m Hne Hct Het Hm) as [Em _]. subst m.
    split; [| split].
    + unfold left_join_labels, joined_name. simpl.
      now rewrite (proj2 (mem_string_In "label" (columns c)) Hl).
    + intros r Hr. apply in_left_join_rows in Hr.
      destruct Hr as [l [Hin [[E Er] | [x [Hx Er]]]]]; subst r.
      * exists l, None. split; [assumption |]. split; [reflexivity |].
        split.
        { unfold label_of. simpl columns.
          apply cell_at_extended; [exact Hl | now apply wf_row]. }
        right. split; [| reflexivity]. now apply persisted_labels_nil.
      * exists l, x. split; [assumption |]. split; [reflexivity |].
        split.
        { unfold label_of. simpl columns.
          apply cell_at_extended; [exact Hl | now apply wf_row]. }
        left. now apply in_persisted_labels.
    + intros l Hin. split.
      * intros p Hp Hk. apply in_left_join_rows. exists l.
        split; [assumption |]. right. exists (label_of ex p).
        split; [| reflexivity]. apply in_persisted_labels. eauto.
      * intro Hno. apply in_left_join_rows. exists l.
        split; [assumption |]. left. split; [| reflexivity].
        now apply persisted_labels_nil.
Qed.

(** ** The further properties at work on the examples *)

Lemma filter_frame_all_or_nothing_witness :
  filter_comments Examples.comments (SStr "vA") (Some Examples.videos)
    (Some 1%Z) =
  if frame_has_video Examples.videos 1%Z (SStr "vA")
  then filter_comments Examples.comments (SStr "vA") None None
  else Ok (mkDF (columns Examples.comments) []).
Proof.
  apply (filter_frame_all_or_nothing Examples.comments Examples.videos
           (SStr "vA") 1%Z); has_col.
Defined.

Lemma filter_comments_idempotent_witness :
  filter_comments Examples.spec_comments (SStr "vA") (Some Examples.videos)
    (Some 1%Z) = Ok Examples.spec_comments.
Proof.
  apply (filter_comments_idempotent Examples.comments (SStr "vA")
           (Some Examples.videos) (Some 1%Z) Examples.spec_comments).
  reflexivity.
Defined.

Lemma merge_keeps_rows_witness :
  (List.length (rows Examples.spec_comments)
   <= List.length (rows Examples.spec_merged))%nat /\
  (keys_distinct Examples.spec_persisted ->
   List.length (rows Examples.spec_merged)
   = List.length (rows Examples.spec_comments)).
Proof.
  apply (merge_keeps_rows Examples.spec_comments
           (Some Examples.spec_persisted) Examples.spec_merged).
  reflexivity.
Defined.

Lemma merge_raises_iff_witness :
  exists k,
    merge_with_existing_labels Examples.comments
      (Some Examples.persisted_no_videoId) = Raise (KeyError k).
Proof.
  apply (proj2 (merge_raises_iff Examples.comments
                  (Some Examples.persisted_no_videoId))).
  exists Examples.persisted_no_videoId.
  split; [reflexivity |]. split; [reflexivity |].
  split; [has_col |]. split; [has_col |].
  left. unfold has_column. simpl. intuition discriminate.
Defined.

Lemma save_keeps_keys_distinct_witness : keys_distinct Examples2.spec_saved.
Proof.
  apply (save_keeps_keys_distinct Examples.spec_persisted Examples.spec_view
           Examples2.spec_saved).
  - reflexivity.
  - no_dup.
  - well_formed.
  - well_formed.
  - has_col.
  - has_col.
  - has_col.
  - keys_no_dup.
  - keys_no_dup.
  - reflexivity.
Defined.

Lemma save_twice_same_file_witness :
  all_labeled (Some Examples2.spec_saved) Examples.spec_view
  = Ok Examples2.spec_saved.
Proof.
  apply (save_twice_same_file Examples.spec_persisted Examples.spec_view
           Examples2.spec_saved).
  - reflexivity.
  - no_dup.
  - well_formed.
  - well_formed.
  - has_col.
  - has_col.
  - has_col.
  - reflexivity.
Defined.

Lemma resume_recovers_labels_witness :
  merge_with_existing_labels Examples.spec_comments
    (Some Examples2.spec_saved)
  = Ok (labeled_view Examples.spec_comments Examples2.spec_lab).
Proof.
  apply (resume_recovers_labels Examples.spec_comments Examples2.spec_lab
           (Some Examples.spec_persisted) Examples2.spec_saved).
  - well_formed.
  - has_col.
  - has_col.
  - unfold has_column. simpl. intuition discriminate.
  - no_dup.
  - keys_no_dup.
  - intros l Hl. simpl in Hl. destruct Hl as [<- | [<- | []]]; discriminate.
  - split; [reflexivity | well_formed].
  - reflexivity.
Defined.

Lemma first_save_roundtrip_witness :
  exists w',
    save_button Examples.lossless_to_csv Examples2.first_world = (Ok tt, w') /\
    fst (load_existing_labels w') =
      Some (mkDF (columns Examples.spec_view)
              (filter (fun r => notna (label_of Examples.spec_view r))
                 (rows Examples.spec_view))) /\
    ui w' = ui Examples2.first_world ++
      [StSuccess (List.length
                    (filter (fun r => notna (label_of Examples.spec_view r))
                       (rows Examples.spec_view)))].
Proof.
  apply (first_save_roundtrip Examples.lossless_to_csv Examples2.first_world
           Examples.spec_view).
  - reflexivity.
  - has_col.
  - intro df. reflexivity.
Defined.

Lemma save_button_failure_reported_witness :
  save_button Examples.failing_to_csv Examples.spec_world =
    (Ok tt,
     mkWorld (mem Examples.spec_world) (Stored Examples.spec_persisted)
       (ui Examples.spec_world ++
        [StError "Error saving file";
         StError "Failed to save labeled data"])).
Proof.
  apply (save_button_failure_reported Examples.failing_to_csv
           Examples.spec_world Examples2.spec_saved
           (OSError "No space left on device")
           (Stored Examples.spec_persisted)); reflexivity.
Defined.

Lemma spec_picked_valid :
  forall p z, Examples2.spec_picked p = Some z -> In z LABEL_OPTIONS.
Proof.
  intros p z H. unfold Examples2.spec_picked in H.
  destruct (Nat.eqb p 1); inversion H. simpl. tauto.
Defined.

Lemma label_loop_labels_valid_witness :
  columns Examples.spec_view = columns Examples.spec_merged /\
  List.length (rows Examples.spec_view)
    = List.length (rows Examples.spec_merged) /\
  (forall r', In r' (rows Examples.spec_view) ->
     exists z, label_of Examples.spec_view r' = Some (SInt z) /\
               In z LABEL_OPTIONS) /\
  Forall2 (fun r r' =>
             forall name, name <> "label" ->
               cell_at (columns Examples.spec_merged) name r'
               = cell_at (columns Examples.spec_merged) name r)
    (rows Examples.spec_merged) (rows Examples.spec_view).
Proof.
  apply (label_loop_labels_valid Examples2.no_parse Examples2.spec_picked
           Examples.spec_merged Examples.spec_view).
  - has_col.
  - well_formed.
  - exact spec_picked_valid.
  - reflexivity.
Defined.

Lemma spec_merged_labels_valid :
  forall r, In r (rows Examples.spec_merged) ->
    label_of Examples.spec_merged r = None \/
    (exists z, label_of Examples.spec_merged r = Some (SInt z) /\
               In z LABEL_OPTIONS).
Proof.
  intros r Hr. simpl in Hr. destruct Hr as [<- | [<- | []]].
  - right. exists 2%Z. split; [reflexivity | simpl; tauto].
  - left. reflexivity.
Defined.

Lemma label_loop_defaults_witness :
  (exists df', label_loop Examples2.no_parse Examples2.untouched
                 Examples.spec_merged = Ok df') /\
  ((forall p, Examples2.untouched p = None) ->
   label_loop Examples2.no_parse Examples2.untouched Examples.spec_merged =
   Ok (mkDF (columns Examples.spec_merged)
         (map (fun r => match label_of Examples.spec_merged r with
                        | Some _ => r
                        | None => set_nth 2 (Some (SInt 1)) r
                        end) (rows Examples.spec_merged)))).
Proof.
  apply (label_loop_defaults Examples2.no_parse Examples2.untouched
           Examples.spec_merged 2).
  - reflexivity.
  - well_formed.
  - exact spec_merged_labels_valid.
Defined.

Lemma label_loop_bad_label_raises_witness :
  exists msg,
    label_loop Examples2.no_parse Examples2.untouched
      Examples2.bad_label_view = Raise (ValueError msg).
Proof.
  apply (label_loop_bad_label_raises Examples2.no_parse Examples2.untouched
           Examples2.bad_label_view
           [Examples.s "vA"; Examples.s "t1"; Examples.n 5] 5%Z).
  - has_col.
  - simpl. tauto.
  - reflexivity.
  - simpl. intuition discriminate.
Defined.

Lemma labeled_view_saved_whole_witness :
  exists saved others,
    all_labeled (Some Examples.spec_persisted) Examples.spec_view = Ok saved /\
    columns saved = columns Examples.spec_merged /\
    rows saved = others ++ rows Examples.spec_view.
Proof.
  apply (labeled_view_saved_whole Examples2.no_parse Examples2.spec_picked
           Examples.spec_merged Examples.spec_view
           (Some Examples.spec_persisted)).
  - has_col.
  - well_formed.
  - reflexivity.
  - split; [reflexivity |]. split; [no_dup |]. split; [well_formed |].
    split; has_col.
Defined.

Lemma status_filter_partition_witness :
  exists shown_l shown_u,
    apply_label_filter LabeledOnly Examples.spec_merged = Ok shown_l /\
    apply_label_filter UnlabeledOnly Examples.spec_merged = Ok shown_u /\
    Permutation (rows shown_l ++ rows shown_u) (rows Examples.spec_merged) /\
    List.length (rows Examples.spec_merged)
      = (List.length (rows shown_l) + List.length (rows shown_u))%nat /\
    statistics Examples.spec_merged
      = Ok (List.length (rows Examples.spec_merged),
            List.length (rows shown_l), List.length (rows shown_u)) /\
    statistics shown_l = Ok (List.length (rows shown_l),
                             List.length (rows shown_l), 0%nat) /\
    statistics shown_u = Ok (List.length (rows shown_u), 0%nat,
                             List.length (rows shown_u)).
Proof.
  apply (status_filter_partition Examples.spec_merged). has_col.
Defined.

Lemma validated_filter_returns_witness :
  exists view,
    filter_comments Examples.comments (SStr "vA")
      (if true then Some Examples.videos else None) (Some 1%Z) = Ok view /\
    columns view = columns Examples.comments /\
    has_column "text_original" view.
Proof.
  apply (validated_filter_returns Examples.comments Examples.videos
           (SStr "vA") true (Some 1%Z)).
  reflexivity.
Defined.

Lemma keep_order_perm :
  forall l l', Examples2.keep_order l = Ok l' -> Permutation l l'.
Proof.
  intros l l' H. inversion H. apply Permutation_refl.
Defined.

Lemma selection_lists_exact_witness :
  NoDup [Examples.s "vA"; Examples.s "vB"; Examples.s "vC"] /\
  (forall x, In x [Examples.s "vA"; Examples.s "vB"; Examples.s "vC"] <->
     has_column "videoId" Examples.videos /\
     exists r, In r (rows Examples.videos) /\
               cell_at (columns Examples.videos) "videoId" r = x) /\
  ([Examples.s "vA"; Examples.s "vB"; Examples.s "vC"] = [] ->
   ~ has_column "videoId" Examples.videos \/ rows Examples.videos = []).
Proof.
  apply (proj1 (selection_lists_exact Examples2.keep_order Examples.videos
                  keep_order_perm)).
  reflexivity.
Defined.

Lemma resume_duplicates_grow_witness :
  exists m,
    merge_with_existing_labels Examples2.dup_comments
      (Some (labeled_view Examples2.dup_comments Examples2.dup_lab)) = Ok m /\
    (List.length (rows Examples2.dup_comments) + 2
     <= List.length (rows m))%nat.
Proof.
  apply (resume_duplicates_grow Examples2.dup_comments Examples2.dup_lab None
           (labeled_view Examples2.dup_comments Examples2.dup_lab)
           [] [] []
           [Examples.s "vA"; Examples.s "t1"]
           [Examples.s "vA"; Examples.s "t1"]).
  - well_formed.
  - has_col.
  - has_col.
  - unfold has_column. simpl. intuition discriminate.
  - no_dup.
  - reflexivity.
  - reflexivity.
  - intros l Hl. discriminate.
  - exact I.
  - reflexivity.
Defined.

Lemma merge_own_label_column_witness :
  (exists m,
     merge_with_existing_labels Examples2.own_label_comments None = Ok m /\
     (forall r, In r (rows m) -> label_of m r = None)) /\
  (exists m,
     merge_with_existing_labels Examples2.own_label_comments
       (Some Examples.spec_persisted) = Ok m /\
     columns m = columns Examples2.own_label_comments ++ ["label_existing"] /\
     In ([Examples.s "vA"; Examples.s "t1"; Examples.n 1] ++ [Examples.n 2])
        (rows m) /\
     (forall r, In r (rows m) ->
        exists l x,
          In l (rows Examples2.own_label_comments) /\ r = l ++ [x] /\
          label_of m r = label_of Examples2.own_label_comments l)).
Proof.
  destruct (merge_own_label_column Examples2.own_label_comments)
    as [[m [H1 [_ [H2 _]]]] J].
  - well_formed.
  - has_col.
  - split; [exists m; split; assumption |].
    eexists. split; [reflexivity |].
    destruct (J Examples.spec_persisted _ eq_refl
                ltac:(has_col) ltac:(has_col) eq_refl) as [Jc [Jr Jl]].
    split; [exact Jc |]. split.
    + apply (proj1 (Jl [Examples.s "vA"; Examples.s "t1"; Examples.n 1]
                      (or_introl eq_refl))
               [Examples.s "vA"; Examples.s "t1"; Examples.n 2]
               (or_introl eq_refl)).
      reflexivity.
    + intros r Hr. destruct (Jr r Hr) as [l [x [Hl [Er [Hlab _]]]]].
      exists l, x. auto.
Defined.
